(** * mcp-demo: the command-line chat client of [src/client.ts]

    A shallow embedding of the [MCPClient] class and of [main], and the
    properties of the specification stated over it.

    Conventions.
    - A JavaScript string is a [string]: the bytes of its UTF-8 text.
    - The libraries the client calls (the chat-completion client, the
      tool-protocol client, [JSON.parse], the terminal) are not part of the
      program.  Every call to one of them is recorded as an [Event] in a
      trace, and what the call answers is read from an oracle that sees the
      trace so far and the request.
    - An asynchronous call settles or not: an awaited promise is fulfilled,
      rejected, or stays pending for ever.
    - The terminal is the list of the answers it gives to the successive
      questions of the loop. *)

From Stdlib Require Import String Ascii List ZArith Bool Arith Lia.
Import ListNotations.
Local Open Scope list_scope.
Local Open Scope string_scope.

Set Implicit Arguments.
Set Warnings "-register-all".

(* ===================================================================== *)
(** ** Strings *)

(** The line feed written [\n] in the source. *)
Definition LF : ascii := "010"%char.
Definition nl : string := String LF EmptyString.

(** The double quote. *)
Definition DQ : ascii := "034"%char.

(** [Array.prototype.join] on an array of strings. *)
Definition join (sep : string) (parts : list string) : string :=
  String.concat sep parts.

(** [String.prototype.toLowerCase] on one character.  Only the letters A to Z
    are mapped: no character outside them lower-cases to one of [q], [u],
    [i], [t] alone, which is all the comparison in [chatLoop] looks at. *)
Definition lower_ascii (c : ascii) : ascii :=
  let n := nat_of_ascii c in
  if ((65 <=? n) && (n <=? 90))%nat then ascii_of_nat (n + 32) else c.

Fixpoint toLowerCase (s : string) : string :=
  match s with
  | EmptyString => EmptyString
  | String c rest => String (lower_ascii c) (toLowerCase rest)
  end.

(** The digit of a [\u00XX] escape: lower-case hexadecimal. *)
Definition hex_digit (n : nat) : ascii :=
  if (n <? 10)%nat then ascii_of_nat (48 + n) else ascii_of_nat (87 + n).

(** What [JSON.stringify] writes for one character of a string. *)
Definition quote_char (c : ascii) : string :=
  let n := nat_of_ascii c in
  let esc (x : string) := String "\"%char x in
  if (n =? 8)%nat then esc "b"
  else if (n =? 9)%nat then esc "t"
  else if (n =? 10)%nat then esc "n"
  else if (n =? 12)%nat then esc "f"
  else if (n =? 13)%nat then esc "r"
  else if (n =? 34)%nat then esc (String DQ EmptyString)
  else if (n =? 92)%nat then esc "\"
  else if (n <? 32)%nat then
    esc ("u00" ++ String (hex_digit (n / 16)) (String (hex_digit (n mod 16)) EmptyString))
  else String c EmptyString.

Fixpoint quote_chars (s : string) : string :=
  match s with
  | EmptyString => EmptyString
  | String c rest => quote_char c ++ quote_chars rest
  end.

(** [JSON.stringify] applied to a string: the string as a JSON string
    literal, between double quotes. *)
Definition JSON_stringify (s : string) : string :=
  String DQ (quote_chars s ++ String DQ EmptyString).

(* ===================================================================== *)
(** ** Data *)

(** A value as [JSON.parse] builds it.  A number keeps its token. *)
Inductive JSON : Type :=
| JNull
| JBool (b : bool)
| JNumber (token : string)
| JString (s : string)
| JArray (items : list JSON)
| JObject (members : list (string * JSON)).

Inductive TransportKind : Type := stdio | sse.

(** [interface McpServer]. *)
Record McpServer : Type := {
  type_ : option TransportKind;
  command : string;
  args : list string;
  env : option (list (string * JSON))
}.

(** The input schema of a tool as a server reports it. *)
Record InputSchema : Type := {
  properties : option (list (string * JSON));
  schema_required : option (list string)
}.

(** One element of [toolsResult.tools]. *)
Record McpTool : Type := {
  tool_name : string;
  tool_description : option string;
  inputSchema : InputSchema
}.

Record ListToolsResult : Type := { result_tools : list McpTool }.

(** [interface Tool]: an entry of the catalog handed to the chat API.  Its
    [type] is always the literal ["function"]. *)
Record ToolFunction : Type := {
  name : string;
  description : option string;
  parameters : option InputSchema;
  strict : option bool;
  required : option (list string)
}.

Record Tool : Type := {
  type : string;
  function : ToolFunction
}.

(** A tool call of an assistant message. *)
Record ToolCallFunction : Type := {
  call_name : string;
  arguments : string
}.

Record ToolCall : Type := {
  id : string;
  call_function : ToolCallFunction
}.

(** [response.choices[i].message]. *)
Record ChatCompletionMessage : Type := {
  content : option string;
  tool_calls : option (list ToolCall)
}.

Record Choice : Type := { message : ChatCompletionMessage }.

Record ChatCompletion : Type := { choices : list Choice }.

(** [ChatCompletionMessageParam]: a message of the conversation sent to the
    chat API. *)
Inductive Message : Type :=
| UserMessage (text : string)
| AssistantMessage (text : option string) (calls : option (list ToolCall))
| ToolMessage (result : JSON) (tool_call_id : string).

(** The argument of [chat.completions.create]. *)
Record CreateParams : Type := {
  model : string;
  messages : list Message;
  max_tokens : Z;
  stop : option string;
  tools : option (list Tool)
}.

(** What [callTool] resolves to. *)
Record CallToolResult : Type := { result_content : JSON }.

(** The argument of [new StdioClientTransport]. *)
Record StdioClientTransport : Type := {
  transport_command : string;
  transport_args : list string;
  transport_env : option (list (string * JSON))
}.

Inductive Error : Type :=
| TypeError
| SyntaxError
| Failure (reason : string).

(** An argument of [console.log]. *)
Inductive LogArg : Type :=
| LStr (s : string)
| LNames (names : list string)
| LConfig (c : McpServer)
| LError (e : Error).

(** The calls the program makes to its collaborators. *)
Inductive Event : Type :=
| EvConnect (transport : StdioClientTransport)
| EvListTools
| EvCreate (params : CreateParams)
| EvCallTool (name : string) (arguments : JSON)
| EvClose
| EvLog (line : list LogArg)
| EvCreateInterface
| EvQuestion (prompt : string)
| EvRlClose
| EvExit (code : Z).

(* ===================================================================== *)
(** ** Effects *)

(** The fate of an awaited promise. *)
Inductive Settled (A : Type) : Type :=
| Fulfilled (a : A)
| Rejected (e : Error)
| Unsettled.
Arguments Rejected {A} e.
Arguments Unsettled {A}.

(** How a piece of the program ends: with a value, with a thrown error,
    waiting for ever on a promise, or with the process gone. *)
Inductive Res (A : Type) : Type :=
| Ok (a : A)
| Throw (e : Error)
| Hang
| Exit (code : Z).
Arguments Throw {A} e.
Arguments Hang {A}.
Arguments Exit {A} code.

(** The state of an [MCPClient]: its [tools] field, and the calls made so
    far, oldest first. *)
Record State : Type := {
  this_tools : list Tool;
  trace : list Event
}.

Definition M (A : Type) : Type := State -> Res A * State.

Definition ret {A} (a : A) : M A := fun s => (Ok a, s).

Definition bind {A B} (m : M A) (k : A -> M B) : M B :=
  fun s =>
    match m s with
    | (Ok a, s') => k a s'
    | (Throw e, s') => (Throw e, s')
    | (Hang, s') => (Hang, s')
    | (Exit c, s') => (Exit c, s')
    end.

Declare Scope js_scope.
Delimit Scope js_scope with js.
Notation "x <- m ;; k" := (bind m (fun x => k))
  (at level 61, m at next level, right associativity) : js_scope.
Notation "m ;; k" := (bind m (fun _ => k))
  (at level 61, right associativity) : js_scope.
Local Open Scope js_scope.

Definition throw {A} (e : Error) : M A := fun s => (Throw e, s).

Definition record (ev : Event) (s : State) : State :=
  {| this_tools := this_tools s; trace := (trace s ++ [ev])%list |}.

(** A call whose answer the program does not look at. *)
Definition emit (ev : Event) : M unit := fun s => (Ok tt, record ev s).

(** [await] of a call: the call is made, then the promise settles as the
    oracle says for the trace that preceded it. *)
Definition await {A} (ev : Event) (answer : list Event -> Settled A) : M A :=
  fun s =>
    (match answer (trace s) with
     | Fulfilled a => Ok a
     | Rejected e => Throw e
     | Unsettled => Hang
     end, record ev s).

(** [try { body } catch (e) { handler e }]. *)
Definition try_catch {A} (body : M A) (handler : Error -> M A) : M A :=
  fun s =>
    match body s with
    | (Throw e, s') => handler e s'
    | other => other
    end.

(** [try { body } finally { final }]: [final] runs once [body] has completed,
    normally or not, and its own abrupt completion replaces that of [body]. *)
Definition try_finally {A} (body : M A) (final : M unit) : M A :=
  fun s =>
    match body s with
    | (Ok a, s') =>
        match final s' with
        | (Ok _, s'') => (Ok a, s'')
        | (Throw e, s'') => (Throw e, s'')
        | (Hang, s'') => (Hang, s'')
        | (Exit c, s'') => (Exit c, s'')
        end
    | (Throw e, s') =>
        match final s' with
        | (Ok _, s'') => (Throw e, s'')
        | (Throw e', s'') => (Throw e', s'')
        | (Hang, s'') => (Hang, s'')
        | (Exit c, s'') => (Exit c, s'')
        end
    | (Hang, s') => (Hang, s')
    | (Exit c, s') => (Exit c, s')
    end.

(** [console.log(...)]. *)
Definition console_log (line : list LogArg) : M unit := emit (EvLog line).

(** [process.exit(code)]: nothing runs after it. *)
Definition process_exit {A} (code : Z) : M A :=
  fun s => (Exit code, record (EvExit code) s).

(** [x || empty string], for a text [x] that may be null. *)
Definition or_empty (x : option string) : string :=
  match x with
  | Some s => s
  | None => EmptyString
  end.

(* ===================================================================== *)
(** ** The client *)

(** What the program does not contain: [JSON.parse] ([None] when it throws a
    [SyntaxError], which it does exactly on a text that is not valid JSON),
    and the answers of the tool server and of the chat API to each call, given
    the calls made before it. *)
Record World : Type := {
  JSON_parse : string -> option JSON;
  listTools_answer : list Event -> Settled ListToolsResult;
  create_answer : list Event -> CreateParams -> Settled ChatCompletion;
  callTool_answer : list Event -> string -> JSON -> Settled CallToolResult;
  close_answer : list Event -> Settled unit
}.

Section Client.

Variable W : World.

(** [this.mcp.connect(transport)].  The promise is dropped by the caller, so
    only the call is recorded. *)
Definition mcp_connect (transport : StdioClientTransport) : M unit :=
  emit (EvConnect transport).

Definition mcp_listTools : M ListToolsResult :=
  await EvListTools (listTools_answer W).

Definition mcp_callTool (name : string) (arguments : JSON) : M CallToolResult :=
  await (EvCallTool name arguments)
        (fun t => callTool_answer W t name arguments).

Definition mcp_close : M unit := await EvClose (close_answer W).

Definition openai_create (params : CreateParams) : M ChatCompletion :=
  await (EvCreate params) (fun t => create_answer W t params).

Definition get_tools : M (list Tool) := fun s => (Ok (this_tools s), s).

(** [this.tools.push(...tools)]. *)
Definition push_tools (new : list Tool) : M unit :=
  fun s => (Ok tt, {| this_tools := (this_tools s ++ new)%list; trace := trace s |}).

(** The function mapped over [toolsResult.tools] (lines 80 to 91). *)
Definition toolEntry (tool : McpTool) : Tool :=
  {| type := "function";
     function := {| name := tool_name tool;
                    description := tool_description tool;
                    parameters := Some (inputSchema tool);
                    strict := Some true;
                    required := Some [] |} |}.

Definition tool_names (l : list Tool) : list string :=
  map (fun t => name (function t)) l.

Definition connectToServer (serverConfig : McpServer) : M unit :=
  try_catch
    (let transport := {| transport_command := command serverConfig;
                         transport_args := args serverConfig;
                         transport_env := env serverConfig |} in
     mcp_connect transport ;;
     toolsResult <- mcp_listTools ;;
     let tools := map toolEntry (result_tools toolsResult) in
     push_tools tools ;;
     all <- get_tools ;;
     console_log [LStr "Connected to server with tools:"; LNames (tool_names all)])
    (fun e =>
     console_log [LStr "Failed to connect to MCP server: "; LError e] ;;
     throw e).

(** [x[0].f]: reading a property of [x[0]] throws a [TypeError] when the
    array is empty. *)
Definition first {A} (l : list A) : M A :=
  match l with
  | x :: _ => ret x
  | [] => throw TypeError
  end.

Definition parse_arguments (text : string) : M JSON :=
  match JSON_parse W text with
  | Some v => ret v
  | None => throw SyntaxError
  end.

(** The argument of both calls of [chat.completions.create]: the model, the
    length cap and the stop marker are the same, the second call has no
    [tools] field. *)
Definition create_params (messages : list Message) (tools : option (list Tool))
  : CreateParams :=
  {| model := "qwen2.5-vl-72b-instruct"; messages := messages;
     max_tokens := 500; stop := None; tools := tools |}.

Definition trace_line (functionName functionArgs : string) : string :=
  "[Calling tool " ++ functionName ++ " with args "
    ++ JSON_stringify functionArgs ++ "]".

Definition processQuery (query : string) : M string :=
  let messages := [UserMessage query] in
  catalog <- get_tools ;;
  response <- openai_create (create_params messages (Some catalog)) ;;
  choice <- first (choices response) ;;
  match tool_calls (message choice) with
  | Some calls =>
      toolCall <- first calls ;;
      let functionName := call_name (call_function toolCall) in
      let functionArgs := arguments (call_function toolCall) in
      parsed <- parse_arguments functionArgs ;;
      result <- mcp_callTool functionName parsed ;;
      let finalText := [trace_line functionName functionArgs] in
      let messages :=
        (messages ++ [ToolMessage (result_content result) (id toolCall)])%list in
      secondResponse <- openai_create (create_params messages None) ;;
      choice2 <- first (choices secondResponse) ;;
      let finalText := (finalText ++ [or_empty (content (message choice2))])%list in
      ret (join nl finalText)
  | None =>
      ret (join nl [or_empty (content (message choice))])
  end.

Definition prompt : string := nl ++ "Query: ".

(** [rl.question(prompt)] on a terminal that answers [answer]. *)
Definition rl_question (answer : Settled string) : M string :=
  await (EvQuestion prompt) (fun _ => answer).

(** The [while (true)] of [chatLoop], on the answers the terminal will give
    to the successive questions.  When they run out the question stays
    pending. *)
Fixpoint read_loop (stdin : list (Settled string)) : M unit :=
  match stdin with
  | [] => rl_question Unsettled ;; ret tt
  | answer :: rest =>
      message <- rl_question answer ;;
      console_log [LStr "Processing query..."; LStr message] ;;
      if String.eqb (toLowerCase message) "quit" then ret tt
      else
        response <- processQuery message ;;
        console_log [LStr (nl ++ response)] ;;
        read_loop rest
  end.

Definition chatLoop (stdin : list (Settled string)) : M unit :=
  emit EvCreateInterface ;;
  try_finally
    (try_catch
       (console_log [LStr (nl ++ "MCP Client Started!")] ;;
        console_log [LStr "Type your queries or 'quit' to exit."] ;;
        read_loop stdin)
       (fun err => console_log [LStr "Error in chat loop: "; LError err]))
    (emit EvRlClose).

Definition cleanup : M unit := mcp_close.

(** The [for ... of Object.entries(mcpServers.mcpServers)] of [main], on the
    entries in the order [Object.entries] gives them. *)
Fixpoint connect_all (entries : list (string * McpServer)) : M unit :=
  match entries with
  | [] => ret tt
  | (serverName, serverConfig) :: rest =>
      console_log [LStr "Server name: "; LStr serverName] ;;
      console_log [LStr "Server config: "; LConfig serverConfig] ;;
      connectToServer serverConfig ;;
      connect_all rest
  end.

(** The [try] block of [main]. *)
Definition main_body (entries : list (string * McpServer))
                     (stdin : list (Settled string)) : M unit :=
  connect_all entries ;;
  chatLoop stdin.

Definition main (entries : list (string * McpServer))
                (stdin : list (Settled string)) : M unit :=
  try_finally (main_body entries stdin)
              (cleanup ;; process_exit 0).

End Client.

(** A fresh [MCPClient]. *)
Definition new_MCPClient : State := {| this_tools := []; trace := [] |}.

(* ===================================================================== *)
(** ** Reading a trace *)

(** The calls of [callTool] in a trace, oldest first. *)
Fixpoint callTool_calls (t : list Event) : list (string * JSON) :=
  match t with
  | [] => []
  | EvCallTool n a :: rest => (n, a) :: callTool_calls rest
  | _ :: rest => callTool_calls rest
  end.

(** The calls of [chat.completions.create]. *)
Fixpoint create_calls (t : list Event) : list CreateParams :=
  match t with
  | [] => []
  | EvCreate p :: rest => p :: create_calls rest
  | _ :: rest => create_calls rest
  end.

(** The transports handed to [connect]. *)
Fixpoint connect_calls (t : list Event) : list StdioClientTransport :=
  match t with
  | [] => []
  | EvConnect transport :: rest => transport :: connect_calls rest
  | _ :: rest => connect_calls rest
  end.

(** How many times the connection was closed. *)
Fixpoint close_calls (t : list Event) : nat :=
  match t with
  | [] => 0
  | EvClose :: rest => S (close_calls rest)
  | _ :: rest => close_calls rest
  end.

(** Whether [process.exit] was called. *)
Fixpoint exited (t : list Event) : bool :=
  match t with
  | [] => false
  | EvExit _ :: _ => true
  | _ :: rest => exited rest
  end.

(** The transport [connectToServer] builds for a server. *)
Definition transport_of (c : McpServer) : StdioClientTransport :=
  {| transport_command := command c; transport_args := args c;
     transport_env := env c |}.

(** The states of a query that runs a tool call: after the first completion
    call, after the tool call, after the second completion call. *)
Definition first_request (query : string) (s : State) : CreateParams :=
  create_params [UserMessage query] (Some (this_tools s)).

Definition second_request (query : string) (result : CallToolResult)
                          (toolCall : ToolCall) : CreateParams :=
  create_params [UserMessage query;
                 ToolMessage (result_content result) (id toolCall)] None.

Definition asked (query : string) (s : State) : State :=
  record (EvCreate (first_request query s)) s.

Definition called (query : string) (toolCall : ToolCall) (parsed : JSON)
                  (s : State) : State :=
  record (EvCallTool (call_name (call_function toolCall)) parsed) (asked query s).

Definition asked_again (query : string) (toolCall : ToolCall) (parsed : JSON)
                       (result : CallToolResult) (s : State) : State :=
  record (EvCreate (second_request query result toolCall))
         (called query toolCall parsed s).

(** The property the specification asks of a conversation: it holds a
    tool-role message whose [tool_call_id] is the id of a tool call listed by
    an assistant message that comes before it.  [seen] collects the ids the
    assistant messages read so far have listed. *)
Fixpoint answers_listed_call (seen : list string) (conversation : list Message)
  : bool :=
  match conversation with
  | [] => false
  | UserMessage _ :: rest => answers_listed_call seen rest
  | AssistantMessage _ calls :: rest =>
      answers_listed_call
        (match calls with
         | Some l => (map id l ++ seen)%list
         | None => seen
         end) rest
  | ToolMessage _ i :: rest =>
      existsb (String.eqb i) seen || answers_listed_call seen rest
  end.

(** Equality of two strings up to the case of the letters A to Z, character
    by character. *)
Fixpoint equal_ignoring_case (a b : string) : bool :=
  match a, b with
  | EmptyString, EmptyString => true
  | String x a', String y b' =>
      Ascii.eqb (lower_ascii x) (lower_ascii y) && equal_ignoring_case a' b'
  | _, _ => false
  end.

(** The number of tools reported by each call of [listTools] in the trace
    [t], which comes after the calls [before]: the size of the list the
    server answered, nothing when it did not answer. *)
Fixpoint reported (W : World) (before t : list Event) : list nat :=
  match t with
  | [] => []
  | ev :: rest =>
      match ev with
      | EvListTools =>
          match listTools_answer W before with
          | Fulfilled r => [length (result_tools r)]
          | _ => [0]
          end
      | _ => []
      end ++ reported W (before ++ [ev]) rest
  end%list.

Definition sum (l : list nat) : nat := fold_right Nat.add 0 l.

(** What a query does from its tool call on, the first response having asked
    for [toolCall] with arguments that parse to [parsed]: the value and the
    state, by what the tool and then the model answer. *)
Definition after_tool_call (W : World) (query : string) (s : State)
                           (toolCall : ToolCall) (parsed : JSON)
  : Res string * State :=
  match callTool_answer W (trace (asked query s))
                        (call_name (call_function toolCall)) parsed with
  | Fulfilled result =>
      match create_answer W (trace (called query toolCall parsed s))
                          (second_request query result toolCall) with
      | Fulfilled secondResponse =>
          (match choices secondResponse with
           | choice2 :: _ =>
               Ok (trace_line (call_name (call_function toolCall))
                              (arguments (call_function toolCall))
                   ++ nl ++ or_empty (content (message choice2)))
           | [] => Throw TypeError
           end, asked_again query toolCall parsed result s)
      | Rejected e => (Throw e, asked_again query toolCall parsed result s)
      | Unsettled => (Hang, asked_again query toolCall parsed result s)
      end
  | Rejected e => (Throw e, called query toolCall parsed s)
  | Unsettled => (Hang, called query toolCall parsed s)
  end.

(** The state of the loop once [line] is read and announced. *)
Definition line_read (line : string) (s : State) : State :=
  record (EvLog [LStr "Processing query..."; LStr line])
         (record (EvQuestion prompt) s).

(** The states of a connection: once [connect] is called, once [listTools]
    is called. *)
Definition connecting (serverConfig : McpServer) (s : State) : State :=
  record (EvConnect (transport_of serverConfig)) s.

Definition listing (serverConfig : McpServer) (s : State) : State :=
  record EvListTools (connecting serverConfig s).

(** The calls one successful connection adds to the trace. *)
Definition connection (serverName : string) (serverConfig : McpServer)
                      (catalog : list Tool) : list Event :=
  [EvLog [LStr "Server name: "; LStr serverName];
   EvLog [LStr "Server config: "; LConfig serverConfig];
   EvConnect (transport_of serverConfig);
   EvListTools;
   EvLog [LStr "Connected to server with tools:"; LNames (tool_names catalog)]].

(** The calls that neither close the connection nor end the process. *)
Definition quiet (ev : Event) : bool :=
  match ev with
  | EvClose | EvExit _ => false
  | _ => true
  end.

(** A piece of program that only adds quiet calls to the trace, and does not
    end the process. *)
Definition stays_open {A} (m : M A) : Prop :=
  forall s,
    (exists added, trace (snd (m s)) = (trace s ++ added)%list
                   /\ forallb quiet added = true)
    /\ forall code, fst (m s) <> Exit code.

(* ===================================================================== *)
(** ** Further readings of a trace *)

(** How many times [rl.question] was called. *)
Fixpoint question_calls (t : list Event) : nat :=
  match t with
  | [] => 0
  | EvQuestion _ :: rest => S (question_calls rest)
  | _ :: rest => question_calls rest
  end.

(** How many times [rl.close] was called. *)
Fixpoint rl_close_calls (t : list Event) : nat :=
  match t with
  | [] => 0
  | EvRlClose :: rest => S (rl_close_calls rest)
  | _ :: rest => rl_close_calls rest
  end.



(** The test of the loop on a line. *)
Definition is_quit (line : string) : bool :=
  String.eqb (toLowerCase line) "quit".


(** The tools answered by each call of [listTools] in the trace [t], which
    comes after the calls [before]. *)
Fixpoint listed (W : World) (before t : list Event) : list (list McpTool) :=
  match t with
  | [] => []
  | ev :: rest =>
      match ev with
      | EvListTools =>
          match listTools_answer W before with
          | Fulfilled r => [result_tools r]
          | _ => [[]]
          end
      | _ => []
      end ++ listed W (before ++ [ev]) rest
  end%list.

(** The two shapes of a completion request: a question, with the catalog and
    the user message alone, or a follow-up, without catalog, the user message
    followed by one tool message. *)
Definition request_shape (catalog : list Tool) (p : CreateParams) : Prop :=
  (exists query, p = create_params [UserMessage query] (Some catalog))
  \/ (exists query result call_id,
        p = create_params [UserMessage query; ToolMessage result call_id] None).

(** The calls of the loop: completion requests of one of the two shapes, tool
    calls, questions and printed lines. *)
Definition loop_event (catalog : list Tool) (ev : Event) : Prop :=
  match ev with
  | EvCreate p => request_shape catalog p
  | EvCallTool _ _ | EvQuestion _ | EvLog _ => True
  | _ => False
  end.

(** The calls of the startup: printed lines, connections and listings. *)
Definition startup_event (ev : Event) : Prop :=
  match ev with
  | EvLog _ | EvConnect _ | EvListTools => True
  | _ => False
  end.

(** The three traces of a query: the question alone, the question and the
    tool call, or these and the follow-up. *)
Definition query_trace (query : string) (s : State) (added : list Event) : Prop :=
  added = [EvCreate (first_request query s)]
  \/ (exists name parsed,
        added = [EvCreate (first_request query s); EvCallTool name parsed])
  \/ (exists name parsed result call_id,
        added = [EvCreate (first_request query s); EvCallTool name parsed;
                 EvCreate (create_params
                             [UserMessage query; ToolMessage result call_id]
                             None)]).

(** The state in which the loop of [chatLoop] starts: the interface is
    created and the two lines of the banner are printed. *)
Definition started (s : State) : State :=
  record (EvLog [LStr "Type your queries or 'quit' to exit."])
         (record (EvLog [LStr (nl ++ "MCP Client Started!")])
                 (record EvCreateInterface s)).

(** The state in which the connection of a server starts: its name and its
    configuration are printed. *)
Definition announced (serverName : string) (serverConfig : McpServer)
                     (s : State) : State :=
  record (EvLog [LStr "Server config: "; LConfig serverConfig])
         (record (EvLog [LStr "Server name: "; LStr serverName]) s).

(** The state a failed connection ends in: the error is printed. *)
Definition refused (serverName : string) (serverConfig : McpServer)
                   (e : Error) (s : State) : State :=
  record (EvLog [LStr "Failed to connect to MCP server: "; LError e])
         (listing serverConfig (announced serverName serverConfig s)).

(** The [finally] block of [main], run in the state [s]: the connection is
    closed, and the process exits once the closing has succeeded. *)
Definition closing (W : World) (s : State) : Res unit * State :=
  match close_answer W (trace s) with
  | Fulfilled _ => (Exit 0%Z, record (EvExit 0%Z) (record EvClose s))
  | Rejected e => (Throw e, record EvClose s)
  | Unsettled => (Hang, record EvClose s)
  end.

(* ===================================================================== *)
(** ** A session to run

    One tool server per command name, a chat model that asks for the tool
    [echo], and the texts it sends as arguments. *)

Module Example.

Definition quoted (s : string) : string := String DQ (s ++ String DQ EmptyString).

(** The text [{"msg":"hi"}]. *)
Definition echo_arguments : string :=
  "{" ++ quoted "msg" ++ ":" ++ quoted "hi" ++ "}".

Definition echo_call : ToolCall :=
  {| id := "call_1";
     call_function := {| call_name := "echo"; arguments := echo_arguments |} |}.

Definition add_call : ToolCall :=
  {| id := "call_2";
     call_function := {| call_name := "add"; arguments := "{}" |} |}.

(** A call whose arguments stop short: [{"msg":]. *)
Definition broken_call : ToolCall :=
  {| id := "call_3";
     call_function := {| call_name := "echo";
                         arguments := "{" ++ quoted "msg" ++ ":" |} |}.

(** [JSON.parse] on the texts of this session. *)
Definition parse (text : string) : option JSON :=
  if String.eqb text echo_arguments then Some (JObject [("msg", JString "hi")])
  else if String.eqb text "{}" then Some (JObject [])
  else None.

Definition reply (text : option string) (calls : option (list ToolCall))
  : ChatCompletion :=
  {| choices := [ {| message := {| content := text; tool_calls := calls |} |} ] |}.

Definition asks_echo : ChatCompletion := reply None (Some [echo_call; add_call]).
Definition asks_broken : ChatCompletion := reply None (Some [broken_call]).
Definition plain : ChatCompletion := reply (Some "Hello!") None.
Definition empty_list : ChatCompletion := reply (Some "Hello!") (Some []).
Definition final : ChatCompletion := reply (Some "The tool said hi.") None.

Definition string_schema : JSON := JObject [("type", JString "string")].

(** A tool whose schema requires both of its fields. *)
Definition pair_tool : McpTool :=
  {| tool_name := "pair";
     tool_description := Some "Pairs two texts";
     inputSchema := {| properties := Some [("a", string_schema); ("b", string_schema)];
                       schema_required := Some ["a"; "b"] |} |}.

Definition echo_tool : McpTool :=
  {| tool_name := "echo";
     tool_description := None;
     inputSchema := {| properties := Some [("msg", string_schema)];
                       schema_required := Some ["msg"] |} |}.

Definition add_tool : McpTool :=
  {| tool_name := "add";
     tool_description := Some "Adds two numbers";
     inputSchema := {| properties := None; schema_required := None |} |}.

(** The server started by [node] reports two tools, the one started by
    [python] one tool, any other command fails. *)
Definition tools_of (t : list Event) : Settled ListToolsResult :=
  match rev (connect_calls t) with
  | transport :: _ =>
      if String.eqb (transport_command transport) "node"
      then Fulfilled {| result_tools := [pair_tool; echo_tool] |}
      else if String.eqb (transport_command transport) "python"
      then Fulfilled {| result_tools := [add_tool] |}
      else Rejected (Failure "spawn ENOENT")
  | [] => Rejected (Failure "Not connected")
  end.

(** The model answers [firstReply] to a request that carries a tool catalog
    and [final] to one that does not. *)
Definition world (firstReply : ChatCompletion) : World :=
  {| JSON_parse := parse;
     listTools_answer := tools_of;
     create_answer := fun _ p =>
       match tools p with
       | Some _ => Fulfilled firstReply
       | None => Fulfilled final
       end;
     callTool_answer := fun _ _ _ =>
       Fulfilled {| result_content := JArray [JString "hi"] |};
     close_answer := fun _ => Fulfilled tt |}.

Definition node_server : McpServer :=
  {| type_ := None; command := "node"; args := ["server.js"]; env := None |}.

Definition python_server : McpServer :=
  {| type_ := Some stdio; command := "python"; args := ["-m"; "adder"];
     env := Some [("DEBUG", JString "1")] |}.

Definition servers : list (string * McpServer) :=
  [("texts", node_server); ("adder", python_server)].

End Example.

(** A second session: two servers started by the same command, which report
    the same tools, and a server whose command does not exist. *)
Module Startup.

Definition twin_servers : list (string * McpServer) :=
  [("first", Example.node_server); ("second", Example.node_server)].

Definition missing_server : McpServer :=
  {| type_ := None; command := "nowhere"; args := []; env := None |}.

Definition servers : list (string * McpServer) :=
  [("texts", Example.node_server); ("lost", missing_server);
   ("adder", Example.python_server)].

(** A chat API that refuses every request. *)
Definition silent_model : World :=
  {| JSON_parse := Example.parse;
     listTools_answer := Example.tools_of;
     create_answer := fun _ _ => Rejected (Failure "401");
     callTool_answer := fun _ _ _ =>
       Fulfilled {| result_content := JArray [JString "hi"] |};
     close_answer := fun _ => Fulfilled tt |}.

(** A tool server that refuses every call, and does not close. *)
Definition failing_tool (firstReply : ChatCompletion) : World :=
  {| JSON_parse := Example.parse;
     listTools_answer := Example.tools_of;
     create_answer := fun _ p =>
       match tools p with
       | Some _ => Fulfilled firstReply
       | None => Fulfilled Example.final
       end;
     callTool_answer := fun _ _ _ => Rejected (Failure "tool error");
     close_answer := fun _ => Rejected (Failure "close error") |}.

(** A chat API that answers the question and refuses the follow-up. *)
Definition no_follow_up (firstReply : ChatCompletion) : World :=
  {| JSON_parse := Example.parse;
     listTools_answer := Example.tools_of;
     create_answer := fun _ p =>
       match tools p with
       | Some _ => Fulfilled firstReply
       | None => Rejected (Failure "429")
       end;
     callTool_answer := fun _ _ _ =>
       Fulfilled {| result_content := JArray [JString "hi"] |};
     close_answer := fun _ => Fulfilled tt |}.

End Startup.

(* ===================================================================== *)
(** ** Runs of [processQuery] *)

Lemma trace_record ev s : trace (record ev s) = (trace s ++ [ev])%list.
Proof. reflexivity. Qed.

Lemma this_tools_record ev s : this_tools (record ev s) = this_tools s.
Proof. reflexivity. Qed.

Lemma callTool_calls_app t u :
  callTool_calls (t ++ u) = (callTool_calls t ++ callTool_calls u)%list.
Proof.
  induction t as [|ev t IH]; simpl; [reflexivity|].
  destruct ev; simpl; rewrite IH; reflexivity.
Qed.

Lemma create_calls_app t u :
  create_calls (t ++ u) = (create_calls t ++ create_calls u)%list.
Proof.
  induction t as [|ev t IH]; simpl; [reflexivity|].
  destruct ev; simpl; rewrite IH; reflexivity.
Qed.

Section Runs.

Variable W : World.
Variables (query : string) (s : State).
Variables (response : ChatCompletion) (choice : Choice) (others : list Choice).

Hypothesis first_answer :
  create_answer W (trace s) (first_request query s) = Fulfilled response.
Hypothesis first_choice : choices response = choice :: others.

(** The response has no [tool_calls] field: the [else] branch. *)
Lemma processQuery_without_calls :
  tool_calls (message choice) = None ->
  processQuery W query s
  = (Ok (or_empty (content (message choice))), asked query s).
Proof.
  intros Hnone. unfold processQuery, bind, get_tools, openai_create, await.
  fold (first_request query s). rewrite first_answer, first_choice. simpl.
  rewrite Hnone. reflexivity.
Qed.

(** The field is an empty array: [toolCall] is [undefined]. *)
Lemma processQuery_with_empty_list :
  tool_calls (message choice) = Some [] ->
  processQuery W query s = (Throw TypeError, asked query s).
Proof.
  intros Hempty. unfold processQuery, bind, get_tools, openai_create, await.
  fold (first_request query s). rewrite first_answer, first_choice. simpl.
  rewrite Hempty. reflexivity.
Qed.

Variables (toolCall : ToolCall) (more : list ToolCall).
Hypothesis first_call : tool_calls (message choice) = Some (toolCall :: more).

(** [JSON.parse] throws: [callTool] is not reached. *)
Lemma processQuery_with_bad_arguments :
  JSON_parse W (arguments (call_function toolCall)) = None ->
  processQuery W query s = (Throw SyntaxError, asked query s).
Proof.
  intros Hbad. unfold processQuery, bind, get_tools, openai_create, await.
  fold (first_request query s). rewrite first_answer, first_choice. simpl.
  rewrite first_call. simpl. unfold parse_arguments. rewrite Hbad. reflexivity.
Qed.

Variable parsed : JSON.
Hypothesis arguments_parse :
  JSON_parse W (arguments (call_function toolCall)) = Some parsed.

Lemma processQuery_with_call :
  processQuery W query s = after_tool_call W query s toolCall parsed.
Proof.
  unfold after_tool_call.
  destruct (callTool_answer W (trace (asked query s))
                            (call_name (call_function toolCall)) parsed)
    as [result|e|] eqn:Htool.
  2,3: unfold processQuery, bind, get_tools, openai_create, mcp_callTool, await;
       fold (first_request query s); rewrite first_answer, first_choice;
       cbn [first ret]; rewrite first_call; cbn [first ret];
       unfold parse_arguments; rewrite arguments_parse; cbn [ret];
       fold (asked query s); rewrite Htool; reflexivity.
  destruct (create_answer W (trace (called query toolCall parsed s))
                          (second_request query result toolCall))
    as [secondResponse|e|] eqn:Hsecond.
  1: destruct (choices secondResponse) as [|choice2 rest] eqn:Hchoice.
  all: unfold processQuery, bind, get_tools, openai_create, mcp_callTool, await;
       fold (first_request query s); rewrite first_answer, first_choice;
       cbn [first ret]; rewrite first_call; cbn [first ret];
       unfold parse_arguments; rewrite arguments_parse; cbn [ret];
       fold (asked query s); rewrite Htool;
       fold (called query toolCall parsed s);
       change (create_params ([UserMessage query] ++
                 [ToolMessage (result_content result) (id toolCall)]) None)
         with (second_request query result toolCall);
       rewrite Hsecond; try rewrite Hchoice; reflexivity.
Qed.

End Runs.

(** A query that runs a tool call and gets both answers: the value returned,
    and the calls made. *)
Lemma processQuery_with_result (W : World) (query : string) (s : State)
    (response : ChatCompletion) (choice : Choice) (others : list Choice)
    (toolCall : ToolCall) (more : list ToolCall) (parsed : JSON)
    (result : CallToolResult)
    (secondResponse : ChatCompletion) (choice2 : Choice) (others2 : list Choice) :
  create_answer W (trace s) (first_request query s) = Fulfilled response ->
  choices response = choice :: others ->
  tool_calls (message choice) = Some (toolCall :: more) ->
  JSON_parse W (arguments (call_function toolCall)) = Some parsed ->
  callTool_answer W (trace (asked query s))
                  (call_name (call_function toolCall)) parsed = Fulfilled result ->
  create_answer W (trace (called query toolCall parsed s))
                (second_request query result toolCall) = Fulfilled secondResponse ->
  choices secondResponse = choice2 :: others2 ->
  processQuery W query s
  = (Ok (trace_line (call_name (call_function toolCall))
                    (arguments (call_function toolCall))
         ++ nl ++ or_empty (content (message choice2))),
     asked_again query toolCall parsed result s).
Proof.
  intros H1 H2 H3 H4 H5 H6 H7.
  rewrite (processQuery_with_call W query s H1 H2 H3 H4).
  unfold after_tool_call. rewrite H5, H6, H7. reflexivity.
Qed.

(* ===================================================================== *)
(** ** The answer of a query that runs a tool *)

(** C1, as the code has it.  When the first completion response holds at
    least one tool call, its arguments parse, and the tool call and the second
    completion succeed, [processQuery] returns two lines: the line
    [[Calling tool NAME with args ARGS]], with [ARGS] the arguments text as a
    JSON string literal, then the text content of the second response (the
    empty string when that content is null). *)
Theorem processQuery_returns_trace_line_then_second_text
    (W : World) (query : string) (s : State)
    (response : ChatCompletion) (choice : Choice) (others : list Choice)
    (toolCall : ToolCall) (more : list ToolCall) (parsed : JSON)
    (result : CallToolResult)
    (secondResponse : ChatCompletion) (choice2 : Choice) (others2 : list Choice) :
  create_answer W (trace s) (first_request query s) = Fulfilled response ->
  choices response = choice :: others ->
  tool_calls (message choice) = Some (toolCall :: more) ->
  JSON_parse W (arguments (call_function toolCall)) = Some parsed ->
  callTool_answer W (trace (asked query s))
                  (call_name (call_function toolCall)) parsed = Fulfilled result ->
  create_answer W (trace (called query toolCall parsed s))
                (second_request query result toolCall) = Fulfilled secondResponse ->
  choices secondResponse = choice2 :: others2 ->
  fst (processQuery W query s)
  = Ok (join nl ["[Calling tool " ++ call_name (call_function toolCall)
                   ++ " with args "
                   ++ JSON_stringify (arguments (call_function toolCall)) ++ "]";
                 or_empty (content (message choice2))]).
Proof.
  intros H1 H2 H3 H4 H5 H6 H7.
  rewrite (processQuery_with_result W query s H1 H2 H3 H4 H5 H6 H7).
  reflexivity.
Qed.

(** The session of the example: the model asks for [echo], the tool answers,
    the model concludes. *)
Lemma processQuery_returns_trace_line_then_second_text_example :
  fst (processQuery (Example.world Example.asks_echo) "say hi" new_MCPClient)
  = Ok (join nl ["[Calling tool echo with args "
                   ++ JSON_stringify Example.echo_arguments ++ "]";
                 "The tool said hi."]).
Proof.
  exact (processQuery_returns_trace_line_then_second_text
           (Example.world Example.asks_echo) "say hi" new_MCPClient
           (response := Example.asks_echo) (toolCall := Example.echo_call)
           (parsed := JObject [("msg", JString "hi")])
           (result := {| result_content := JArray [JString "hi"] |})
           (secondResponse := Example.final)
           eq_refl eq_refl eq_refl eq_refl eq_refl eq_refl eq_refl).
Defined.

(** C1, as the specification words it, fails: in the session of the example
    the first response holds tool calls, the second response's text is
    [The tool said hi.], and the value returned is not that text. *)
Lemma processQuery_returns_more_than_second_text :
  let W := Example.world Example.asks_echo in
  let s := new_MCPClient in
  create_answer W (trace s) (first_request "say hi" s) = Fulfilled Example.asks_echo
  /\ choices Example.asks_echo
     = [ {| message :=
              {| content := None;
                 tool_calls := Some [Example.echo_call; Example.add_call] |} |} ]
  /\ create_answer W
       (trace (called "say hi" Example.echo_call (JObject [("msg", JString "hi")]) s))
       (second_request "say hi" {| result_content := JArray [JString "hi"] |}
                       Example.echo_call)
     = Fulfilled (Example.reply (Some "The tool said hi.") None)
  /\ fst (processQuery W "say hi" s) <> Ok "The tool said hi.".
Proof.
  cbv zeta. repeat split. vm_compute. discriminate.
Qed.

(* ===================================================================== *)
(** ** The conversation of the second completion call *)

(** Whatever the query, the tool result and the tool call, the conversation
    of the second request is the user message followed by the tool message:
    the assistant message that listed the call is not in it. *)
Lemma second_request_conversation query result toolCall :
  messages (second_request query result toolCall)
  = [UserMessage query; ToolMessage (result_content result) (id toolCall)]
  /\ answers_listed_call [] (messages (second_request query result toolCall))
     = false.
Proof. split; reflexivity. Qed.

(** C2 on the session of the example.  The two completion calls of the query
    are the first request and then a request whose conversation is
    [user, tool]: its tool message carries the id [call_1] of the call the
    model asked for, and no assistant message precedes it, so the conversation
    does not have the property the specification asks for. *)
Theorem second_conversation_has_no_assistant_message :
  let W := Example.world Example.asks_echo in
  let second :=
    create_params [UserMessage "say hi";
                   ToolMessage (JArray [JString "hi"]) "call_1"] None in
  create_calls (trace (snd (processQuery W "say hi" new_MCPClient)))
  = [first_request "say hi" new_MCPClient; second]
  /\ callTool_calls (trace (snd (processQuery W "say hi" new_MCPClient)))
     = [("echo", JObject [("msg", JString "hi")])]
  /\ answers_listed_call [] (messages second) = false.
Proof. cbv zeta. repeat split. Qed.

(* ===================================================================== *)
(** ** The tool call of a query *)

(** C4.  When the first completion response holds one or more tool calls,
    the run of [processQuery] calls [callTool] exactly once, with the name of
    the first tool call of the list and its arguments as [JSON.parse] read
    them; the other tool calls of the response are not run. *)
Theorem processQuery_calls_first_tool_once
    (W : World) (query : string) (s : State)
    (response : ChatCompletion) (choice : Choice) (others : list Choice)
    (toolCall : ToolCall) (more : list ToolCall) (parsed : JSON) :
  create_answer W (trace s) (first_request query s) = Fulfilled response ->
  choices response = choice :: others ->
  tool_calls (message choice) = Some (toolCall :: more) ->
  JSON_parse W (arguments (call_function toolCall)) = Some parsed ->
  callTool_calls (trace (snd (processQuery W query s)))
  = (callTool_calls (trace s)
       ++ [(call_name (call_function toolCall), parsed)])%list.
Proof.
  intros H1 H2 H3 H4.
  rewrite (processQuery_with_call W query s H1 H2 H3 H4).
  unfold after_tool_call.
  destruct (callTool_answer W (trace (asked query s))
                            (call_name (call_function toolCall)) parsed)
    as [result|e|].
  1: destruct (create_answer W (trace (called query toolCall parsed s))
                             (second_request query result toolCall))
       as [secondResponse|e|].
  all: cbn [snd]; unfold asked_again, called, asked;
       repeat rewrite trace_record; repeat rewrite callTool_calls_app;
       cbn [callTool_calls]; repeat rewrite app_nil_r; reflexivity.
Qed.

Lemma processQuery_calls_first_tool_once_example :
  callTool_calls
    (trace (snd (processQuery (Example.world Example.asks_echo) "say hi"
                              new_MCPClient)))
  = [("echo", JObject [("msg", JString "hi")])].
Proof.
  exact (processQuery_calls_first_tool_once
           (Example.world Example.asks_echo) "say hi" new_MCPClient
           (response := Example.asks_echo) (toolCall := Example.echo_call)
           (more := [Example.add_call])
           eq_refl eq_refl eq_refl eq_refl).
Defined.

(** C5.  When the arguments of the first tool call are not valid JSON,
    [processQuery] fails with the [SyntaxError] of [JSON.parse]; [callTool]
    is not called, and the tool catalog is as it was. *)
Theorem processQuery_bad_arguments_no_tool_call
    (W : World) (query : string) (s : State)
    (response : ChatCompletion) (choice : Choice) (others : list Choice)
    (toolCall : ToolCall) (more : list ToolCall) :
  create_answer W (trace s) (first_request query s) = Fulfilled response ->
  choices response = choice :: others ->
  tool_calls (message choice) = Some (toolCall :: more) ->
  JSON_parse W (arguments (call_function toolCall)) = None ->
  fst (processQuery W query s) = Throw SyntaxError
  /\ callTool_calls (trace (snd (processQuery W query s)))
     = callTool_calls (trace s)
  /\ this_tools (snd (processQuery W query s)) = this_tools s.
Proof.
  intros H1 H2 H3 H4.
  rewrite (processQuery_with_bad_arguments W query s H1 H2 H3 H4).
  cbn [fst snd]. unfold asked. rewrite trace_record, callTool_calls_app.
  cbn [callTool_calls]. rewrite app_nil_r. repeat split.
Qed.

Lemma processQuery_bad_arguments_no_tool_call_example :
  let run := processQuery (Example.world Example.asks_broken) "say hi"
                          new_MCPClient in
  fst run = Throw SyntaxError
  /\ callTool_calls (trace (snd run)) = []
  /\ this_tools (snd run) = [].
Proof.
  exact (processQuery_bad_arguments_no_tool_call
           (Example.world Example.asks_broken) "say hi" new_MCPClient
           (response := Example.asks_broken) (toolCall := Example.broken_call)
           eq_refl eq_refl eq_refl eq_refl).
Defined.

(* ===================================================================== *)
(** ** A response without tool calls *)

(** C6 on a response whose [tool_calls] is an empty array, with the text
    [Hello!]: such a response asks for no tool call, and [processQuery] does
    not return its text but throws a [TypeError], after the first completion
    call only. *)
Theorem processQuery_empty_list_does_not_return_text :
  let W := Example.world Example.empty_list in
  create_answer W [] (first_request "hello" new_MCPClient)
  = Fulfilled (Example.reply (Some "Hello!") (Some []))
  /\ processQuery W "hello" new_MCPClient
     = (Throw TypeError, asked "hello" new_MCPClient)
  /\ fst (processQuery W "hello" new_MCPClient) <> Ok "Hello!".
Proof. cbv zeta. repeat split. discriminate. Qed.

Lemma record_not_same ev s : record ev s <> s.
Proof.
  intros H. apply (f_equal trace) in H. rewrite trace_record in H.
  apply (f_equal (@length Event)) in H. rewrite length_app in H.
  simpl in H. lia.
Qed.

Lemma record_twice_not_same ev ev' s : record ev' (record ev s) <> s.
Proof.
  intros H. apply (f_equal trace) in H. repeat rewrite trace_record in H.
  apply (f_equal (@length Event)) in H. repeat rewrite length_app in H.
  simpl in H. lia.
Qed.

(** C10.  When the [tool_calls] of the first completion response is present
    and empty, [processQuery] takes the tool-call branch and fails there with
    a [TypeError], reading the first element of the empty list; it does not
    return the text of the response.  A run that returns after the first
    completion call alone (the path without tool call) is one whose response
    has no [tool_calls]. *)
Theorem processQuery_empty_list_fails
    (W : World) (query : string) (s : State)
    (response : ChatCompletion) (choice : Choice) (others : list Choice) :
  create_answer W (trace s) (first_request query s) = Fulfilled response ->
  choices response = choice :: others ->
  (tool_calls (message choice) = Some [] ->
   processQuery W query s = (Throw TypeError, asked query s))
  /\ (forall text, processQuery W query s = (Ok text, asked query s) ->
      tool_calls (message choice) = None).
Proof.
  intros H1 H2. split.
  - apply processQuery_with_empty_list with (1 := H1) (2 := H2).
  - intros text Hrun.
    destruct (tool_calls (message choice)) as [[|toolCall more]|] eqn:Hcalls;
      [ | | reflexivity].
    + rewrite (processQuery_with_empty_list W query s H1 H2 Hcalls) in Hrun.
      discriminate.
    + destruct (JSON_parse W (arguments (call_function toolCall)))
        as [parsed|] eqn:Hparse.
      * rewrite (processQuery_with_call W query s H1 H2 Hcalls Hparse) in Hrun.
        unfold after_tool_call in Hrun. exfalso.
        destruct (callTool_answer W (trace (asked query s))
                                  (call_name (call_function toolCall)) parsed)
          as [result|e|].
        1: destruct (create_answer W (trace (called query toolCall parsed s))
                                   (second_request query result toolCall))
             as [secondResponse|e|].
        all: apply (f_equal snd) in Hrun; cbn [snd] in Hrun;
             unfold asked_again, called in Hrun;
             first [ exact (record_not_same Hrun)
                   | exact (record_twice_not_same Hrun) ].
      * rewrite (processQuery_with_bad_arguments W query s H1 H2 Hcalls Hparse)
          in Hrun.
        discriminate.
Qed.

Lemma processQuery_empty_list_fails_example :
  processQuery (Example.world Example.empty_list) "hello" new_MCPClient
  = (Throw TypeError, asked "hello" new_MCPClient).
Proof.
  exact (proj1 (processQuery_empty_list_fails
                  (Example.world Example.empty_list) "hello" new_MCPClient
                  (response := Example.empty_list) eq_refl eq_refl)
               eq_refl).
Defined.

(* ===================================================================== *)
(** ** The tool catalog *)

Lemma toolEntry_required_and_strict (tool : McpTool) :
  required (function (toolEntry tool)) = Some []
  /\ strict (function (toolEntry tool)) = Some true.
Proof. split; reflexivity. Qed.

Section Connect.

Variable W : World.
Variables (serverConfig : McpServer) (s : State).

(** The server answers with its tools. *)
Lemma connectToServer_fulfilled (r : ListToolsResult) :
  listTools_answer W (trace (connecting serverConfig s)) = Fulfilled r ->
  connectToServer W serverConfig s
  = (Ok tt,
     let catalog := (this_tools s ++ map toolEntry (result_tools r))%list in
     {| this_tools := catalog;
        trace := (trace (listing serverConfig s)
                    ++ [EvLog [LStr "Connected to server with tools:";
                               LNames (tool_names catalog)]])%list |}).
Proof.
  intros Hanswer.
  unfold connectToServer, try_catch, bind, mcp_connect, mcp_listTools, emit, await.
  fold (transport_of serverConfig). fold (connecting serverConfig s). rewrite Hanswer.
  reflexivity.
Qed.

(** The listing fails: the error is logged and thrown again. *)
Lemma connectToServer_rejected (e : Error) :
  listTools_answer W (trace (connecting serverConfig s)) = Rejected e ->
  connectToServer W serverConfig s
  = (Throw e,
     record (EvLog [LStr "Failed to connect to MCP server: "; LError e])
            (listing serverConfig s)).
Proof.
  intros Hanswer.
  unfold connectToServer, try_catch, bind, mcp_connect, mcp_listTools, emit, await.
  fold (transport_of serverConfig). fold (connecting serverConfig s). rewrite Hanswer.
  reflexivity.
Qed.

Lemma connectToServer_unsettled :
  listTools_answer W (trace (connecting serverConfig s)) = Unsettled ->
  connectToServer W serverConfig s = (Hang, listing serverConfig s).
Proof.
  intros Hanswer.
  unfold connectToServer, try_catch, bind, mcp_connect, mcp_listTools, emit, await.
  fold (transport_of serverConfig). fold (connecting serverConfig s). rewrite Hanswer.
  reflexivity.
Qed.

End Connect.

(** C3.  Every tool a connected server reports is appended to the catalog as
    an entry whose [required] is the empty list and whose [strict] is [true],
    whatever the [required] list of the tool's own schema. *)
Theorem connectToServer_entries_required_empty
    (W : World) (serverConfig : McpServer) (s : State) (r : ListToolsResult) :
  listTools_answer W (trace s ++ [EvConnect (transport_of serverConfig)])
  = Fulfilled r ->
  this_tools (snd (connectToServer W serverConfig s))
  = (this_tools s ++ map toolEntry (result_tools r))%list
  /\ Forall (fun entry => required (function entry) = Some []
                          /\ strict (function entry) = Some true)
            (map toolEntry (result_tools r)).
Proof.
  intros Hanswer. split.
  - rewrite (connectToServer_fulfilled W serverConfig s Hanswer). reflexivity.
  - apply Forall_map, Forall_forall. intros tool _.
    apply toolEntry_required_and_strict.
Qed.

(** The tool [pair], whose schema requires the fields [a] and [b], reported
    by the server of the example. *)
Lemma connectToServer_entries_required_empty_example :
  schema_required (inputSchema Example.pair_tool) = Some ["a"; "b"]
  /\ map (fun entry => (name (function entry), required (function entry),
                        strict (function entry)))
         (this_tools (snd (connectToServer (Example.world Example.plain)
                                           Example.node_server new_MCPClient)))
     = [("pair", Some [], Some true); ("echo", Some [], Some true)].
Proof.
  split; [reflexivity|].
  rewrite (proj1 (connectToServer_entries_required_empty
                    (Example.world Example.plain) Example.node_server
                    new_MCPClient
                    (r := {| result_tools := [Example.pair_tool; Example.echo_tool] |})
                    eq_refl)).
  reflexivity.
Defined.

(* ===================================================================== *)
(** ** The interactive loop *)

Lemma equal_ignoring_case_toLowerCase a : forall b,
  equal_ignoring_case a b = String.eqb (toLowerCase a) (toLowerCase b).
Proof.
  induction a as [|x a IH]; intros [|y b]; try reflexivity.
  simpl. rewrite IH. reflexivity.
Qed.

Lemma equal_ignoring_case_quit line :
  equal_ignoring_case line "quit" = String.eqb (toLowerCase line) "quit".
Proof. apply equal_ignoring_case_toLowerCase. Qed.

Section Loop.

Variable W : World.
Variables (line : string) (rest : list (Settled string)) (s : State).

Lemma read_loop_quit :
  String.eqb (toLowerCase line) "quit" = true ->
  read_loop W (Fulfilled line :: rest) s = (Ok tt, line_read line s).
Proof.
  intros Hquit. cbn [read_loop]. unfold bind, rl_question, await, console_log, emit.
  rewrite Hquit. reflexivity.
Qed.

Lemma read_loop_query :
  String.eqb (toLowerCase line) "quit" = false ->
  read_loop W (Fulfilled line :: rest) s
  = (response <- processQuery W line ;;
     console_log [LStr (nl ++ response)] ;;
     read_loop W rest) (line_read line s).
Proof.
  intros Hother. cbn [read_loop]. unfold rl_question, await, console_log, emit.
  unfold bind at 1 2. rewrite Hother. reflexivity.
Qed.

End Loop.

(** C9.  A line equal to [quit] up to case ends the loop: nothing is read or
    asked after it, and [processQuery] is not run for it.  Any other line is
    handed to [processQuery]; when that returns, a line feed and the value
    returned are printed, and the loop goes on with the next line. *)
Theorem read_loop_quit_or_query
    (W : World) (line : string) (rest : list (Settled string)) (s : State) :
  (equal_ignoring_case line "quit" = true ->
   read_loop W (Fulfilled line :: rest) s = (Ok tt, line_read line s)
   /\ create_calls (trace (line_read line s)) = create_calls (trace s))
  /\ (equal_ignoring_case line "quit" = false ->
      read_loop W (Fulfilled line :: rest) s
      = (response <- processQuery W line ;;
         console_log [LStr (nl ++ response)] ;;
         read_loop W rest) (line_read line s)
      /\ forall response s',
           processQuery W line (line_read line s) = (Ok response, s') ->
           read_loop W (Fulfilled line :: rest) s
           = read_loop W rest (record (EvLog [LStr (nl ++ response)]) s')).
Proof.
  rewrite equal_ignoring_case_quit. split.
  - intros Hquit. split.
    + apply read_loop_quit. exact Hquit.
    + unfold line_read. repeat rewrite trace_record.
      repeat rewrite create_calls_app. cbn [create_calls].
      repeat rewrite app_nil_r. reflexivity.
  - intros Hother. split.
    + apply read_loop_query. exact Hother.
    + intros response s' Hrun. rewrite (read_loop_query W line rest s Hother).
      unfold bind at 1. rewrite Hrun.
      unfold bind, console_log, emit. reflexivity.
Qed.

(** The three spellings of the specification, each followed by a line that is
    never read. *)
Lemma read_loop_quit_or_query_example :
  let W := Example.world Example.plain in
  let s := new_MCPClient in
  read_loop W [Fulfilled "QUIT"; Fulfilled "hello"] s = (Ok tt, line_read "QUIT" s)
  /\ read_loop W [Fulfilled "Quit"; Fulfilled "hello"] s = (Ok tt, line_read "Quit" s)
  /\ read_loop W [Fulfilled "quit"; Fulfilled "hello"] s = (Ok tt, line_read "quit" s)
  /\ read_loop W [Fulfilled "quit!"; Fulfilled "quit"] s
     = read_loop W [Fulfilled "quit"]
         (record (EvLog [LStr (nl ++ "Hello!")])
                 (asked "quit!" (line_read "quit!" s))).
Proof.
  cbv zeta. refine (conj _ (conj _ (conj _ _))).
  - exact (proj1 (proj1 (read_loop_quit_or_query (Example.world Example.plain)
                           "QUIT" [Fulfilled "hello"] new_MCPClient) eq_refl)).
  - exact (proj1 (proj1 (read_loop_quit_or_query (Example.world Example.plain)
                           "Quit" [Fulfilled "hello"] new_MCPClient) eq_refl)).
  - exact (proj1 (proj1 (read_loop_quit_or_query (Example.world Example.plain)
                           "quit" [Fulfilled "hello"] new_MCPClient) eq_refl)).
  - exact (proj2 (proj2 (read_loop_quit_or_query (Example.world Example.plain)
                           "quit!" [Fulfilled "quit"] new_MCPClient) eq_refl)
                 "Hello!" _ eq_refl).
Defined.

(* ===================================================================== *)
(** ** What keeps the connection open *)

Lemma stays_open_ret {A} (a : A) : stays_open (ret a).
Proof.
  intros s. split; [exists []|discriminate].
  split; [symmetry; apply app_nil_r|reflexivity].
Qed.

Lemma stays_open_throw {A} (e : Error) : stays_open (@throw A e).
Proof.
  intros s. split; [exists []|discriminate].
  split; [symmetry; apply app_nil_r|reflexivity].
Qed.

Lemma stays_open_get_tools : stays_open get_tools.
Proof.
  intros s. split; [exists []|discriminate].
  split; [symmetry; apply app_nil_r|reflexivity].
Qed.

Lemma stays_open_push_tools new : stays_open (push_tools new).
Proof.
  intros s. split; [exists []|discriminate].
  split; [symmetry; apply app_nil_r|reflexivity].
Qed.

Lemma stays_open_emit ev : quiet ev = true -> stays_open (emit ev).
Proof.
  intros Hq s. split; [exists [ev]|discriminate].
  split; [reflexivity|]. simpl. rewrite Hq. reflexivity.
Qed.

Lemma stays_open_await {A} ev (answer : list Event -> Settled A) :
  quiet ev = true -> stays_open (await ev answer).
Proof.
  intros Hq s. split.
  - exists [ev]. split; [reflexivity|]. simpl. rewrite Hq. reflexivity.
  - intros code. unfold await. cbn [fst]. destruct (answer (trace s)); discriminate.
Qed.

Lemma stays_open_bind {A B} (m : M A) (k : A -> M B) :
  stays_open m -> (forall a, stays_open (k a)) -> stays_open (bind m k).
Proof.
  intros Hm Hk s. unfold bind.
  destruct (Hm s) as [[added [Ht Hq]] Hexit].
  destruct (m s) as [[a|e| |code] s1]; cbn [fst snd] in *.
  - destruct (Hk a s1) as [[added' [Ht' Hq']] Hexit']. split; [|exact Hexit'].
    exists (added ++ added')%list. split.
    + rewrite Ht', Ht. symmetry. apply app_assoc.
    + rewrite forallb_app, Hq, Hq'. reflexivity.
  - split; [exists added; split; assumption|discriminate].
  - split; [exists added; split; assumption|discriminate].
  - exfalso. exact (Hexit code eq_refl).
Qed.

Lemma stays_open_try_catch {A} (body : M A) (handler : Error -> M A) :
  stays_open body -> (forall e, stays_open (handler e)) ->
  stays_open (try_catch body handler).
Proof.
  intros Hm Hk s. unfold try_catch.
  destruct (Hm s) as [[added [Ht Hq]] Hexit].
  destruct (body s) as [[a|e| |code] s1]; cbn [fst snd] in *.
  - split; [exists added; split; assumption|discriminate].
  - destruct (Hk e s1) as [[added' [Ht' Hq']] Hexit']. split; [|exact Hexit'].
    exists (added ++ added')%list. split.
    + rewrite Ht', Ht. symmetry. apply app_assoc.
    + rewrite forallb_app, Hq, Hq'. reflexivity.
  - split; [exists added; split; assumption|discriminate].
  - exfalso. exact (Hexit code eq_refl).
Qed.

Lemma stays_open_try_finally {A} (body : M A) (final : M unit) :
  stays_open body -> stays_open final -> stays_open (try_finally body final).
Proof.
  intros Hm Hf s. unfold try_finally.
  destruct (Hm s) as [[added [Ht Hq]] Hexit].
  destruct (body s) as [[a|e| |code] s1]; cbn [fst snd] in *.
  1,2: destruct (Hf s1) as [[added' [Ht' Hq']] Hexit'];
       destruct (final s1) as [[[]|e'| |code'] s2]; cbn [fst snd] in *;
       try (exfalso; exact (Hexit' code' eq_refl));
       (split; [|discriminate]);
       exists (added ++ added')%list;
       (split; [rewrite Ht', Ht; symmetry; apply app_assoc
               |rewrite forallb_app, Hq, Hq'; reflexivity]).
  - split; [exists added; split; assumption|discriminate].
  - exfalso. exact (Hexit code eq_refl).
Qed.

Lemma stays_open_first {A} (l : list A) : stays_open (first l).
Proof.
  destruct l; [apply stays_open_throw|apply stays_open_ret].
Qed.

Lemma stays_open_console_log line : stays_open (console_log line).
Proof. apply stays_open_emit. reflexivity. Qed.

Create HintDb open.

#[local] Hint Resolve stays_open_ret stays_open_throw stays_open_get_tools
  stays_open_push_tools stays_open_first stays_open_console_log : open.

Lemma stays_open_processQuery W query : stays_open (processQuery W query).
Proof.
  unfold processQuery.
  apply stays_open_bind; [auto with open|intros catalog].
  apply stays_open_bind; [apply stays_open_await; reflexivity|intros response].
  apply stays_open_bind; [auto with open|intros choice].
  destruct (tool_calls (message choice)) as [calls|]; [|auto with open].
  apply stays_open_bind; [auto with open|intros toolCall].
  apply stays_open_bind.
  { unfold parse_arguments. destruct (JSON_parse W _); auto with open. }
  intros parsed.
  apply stays_open_bind; [apply stays_open_await; reflexivity|intros result].
  apply stays_open_bind; [apply stays_open_await; reflexivity|intros second].
  apply stays_open_bind; auto with open.
Qed.

Lemma stays_open_read_loop W stdin : stays_open (read_loop W stdin).
Proof.
  induction stdin as [|answer rest IH]; cbn [read_loop].
  - apply stays_open_bind; [apply stays_open_await; reflexivity|auto with open].
  - apply stays_open_bind; [apply stays_open_await; reflexivity|intros message].
    apply stays_open_bind; [auto with open|intros _].
    destruct (String.eqb (toLowerCase message) "quit"); [auto with open|].
    apply stays_open_bind; [apply stays_open_processQuery|intros response].
    apply stays_open_bind; [auto with open|intros _; exact IH].
Qed.

Lemma stays_open_chatLoop W stdin : stays_open (chatLoop W stdin).
Proof.
  unfold chatLoop.
  apply stays_open_bind; [apply stays_open_emit; reflexivity|intros _].
  apply stays_open_try_finally; [|apply stays_open_emit; reflexivity].
  apply stays_open_try_catch; [|auto with open].
  apply stays_open_bind; [auto with open|intros _].
  apply stays_open_bind; [auto with open|intros _].
  apply stays_open_read_loop.
Qed.

Lemma stays_open_connectToServer W serverConfig :
  stays_open (connectToServer W serverConfig).
Proof.
  unfold connectToServer. apply stays_open_try_catch.
  - apply stays_open_bind; [apply stays_open_emit; reflexivity|intros _].
    apply stays_open_bind; [apply stays_open_await; reflexivity|intros r].
    apply stays_open_bind; [auto with open|intros _].
    apply stays_open_bind; auto with open.
  - intros e. apply stays_open_bind; auto with open.
Qed.

Lemma stays_open_connect_all W entries : stays_open (connect_all W entries).
Proof.
  induction entries as [|[serverName serverConfig] rest IH]; cbn [connect_all].
  - auto with open.
  - apply stays_open_bind; [auto with open|intros _].
    apply stays_open_bind; [auto with open|intros _].
    apply stays_open_bind; [apply stays_open_connectToServer|intros _; exact IH].
Qed.

Lemma stays_open_main_body W entries stdin :
  stays_open (main_body W entries stdin).
Proof.
  unfold main_body. apply stays_open_bind.
  - apply stays_open_connect_all.
  - intros _. apply stays_open_chatLoop.
Qed.

Lemma close_calls_app t u : close_calls (t ++ u) = close_calls t + close_calls u.
Proof.
  induction t as [|ev t IH]; simpl; [reflexivity|].
  destruct ev; simpl; rewrite IH; reflexivity.
Qed.

Lemma quiet_calls added :
  forallb quiet added = true -> close_calls added = 0 /\ exited added = false.
Proof.
  induction added as [|ev added IH]; simpl; [split; reflexivity|].
  intros H. apply andb_true_iff in H. destruct H as [Hev Hrest].
  destruct ev; simpl in *; try discriminate; auto.
Qed.

(** An error in the loop is caught by [chatLoop]: it returns, unless a
    promise stays pending. *)
Lemma chatLoop_returns_or_hangs W stdin s :
  fst (chatLoop W stdin s) = Ok tt \/ fst (chatLoop W stdin s) = Hang.
Proof.
  destruct (stays_open_chatLoop W stdin s) as [_ Hexit].
  cbv beta iota delta [chatLoop bind emit try_finally try_catch console_log]
    in *.
  match goal with
  | |- context [read_loop W stdin ?s2] =>
      destruct (read_loop W stdin s2) as [[[]|e| |code] s1]
  end; cbn [fst] in *; auto.
  exfalso. exact (Hexit code eq_refl).
Qed.

(* ===================================================================== *)
(** ** Shutdown *)

(** What [main] does once its [try] block has come to an end in [s]. *)
Lemma main_finally W (body : M unit) s0 :
  let final := (cleanup W ;; process_exit 0)%js in
  match body s0 with
  | (Ok _, s) | (Throw _, s) =>
      exists after,
        trace (snd (try_finally body final s0)) = (trace s ++ EvClose :: after)%list
        /\ (after = [] \/ after = [EvExit 0])
  | (Hang, s) | (Exit _, s) => try_finally body final s0 = body s0
  end.
Proof.
  cbv zeta. unfold try_finally.
  destruct (body s0) as [[[]|e| |code] s]; try reflexivity.
  all: unfold cleanup, mcp_close, bind, await, process_exit;
       destruct (close_answer W (trace s)) as [[]|e'|]; cbn [snd];
       unfold record; cbn [trace];
       [ exists [EvExit 0%Z]; split; [rewrite <- app_assoc; reflexivity|auto]
       | exists []; split; [reflexivity|auto]
       | exists []; split; [reflexivity|auto] ].
Qed.

(** C8.  On every run of [main] whose [try] block comes to an end, be it that
    the loop was left on [quit], that an error ended the loop, or that a
    connection failed, the connection is closed exactly once: [close] is
    called after everything the [try] block did, nothing before it closed
    the connection or ended the process, and nothing follows it but the
    [process.exit(0)] that is reached when the closing succeeds. *)
Theorem main_closes_once
    (W : World) (entries : list (string * McpServer))
    (stdin : list (Settled string)) :
  let body := main_body W entries stdin new_MCPClient in
  let run := main W entries stdin new_MCPClient in
  fst body <> Hang ->
  close_calls (trace (snd run)) = 1
  /\ exists after,
       trace (snd run) = (trace (snd body) ++ EvClose :: after)%list
       /\ close_calls (trace (snd body)) = 0
       /\ exited (trace (snd body)) = false
       /\ (after = [] \/ after = [EvExit 0%Z]).
Proof.
  cbv zeta. intros Hends.
  destruct (stays_open_main_body W entries stdin new_MCPClient)
    as [[added [Hadded Hquiet]] Hexit].
  destruct (quiet_calls added Hquiet) as [Hclose Hexited].
  cbn [new_MCPClient trace app] in Hadded.
  assert (Hfinal := main_finally W (main_body W entries stdin) new_MCPClient).
  cbv zeta in Hfinal. fold (main W entries stdin) in Hfinal.
  destruct (main_body W entries stdin new_MCPClient) as [[[]|e| |code] s];
    cbn [fst snd] in *.
  3: contradiction.
  3: exfalso; exact (Hexit code eq_refl).
  all: destruct Hfinal as [after [Htrace Hafter]];
       rewrite Htrace, Hadded; split;
       [ rewrite close_calls_app, Hclose;
         destruct Hafter as [-> | ->]; reflexivity
       | exists after; auto ].
Qed.

(** Three runs: one left on [QUIT], one whose query fails on arguments that
    do not parse, one in which the terminal fails. *)
Lemma main_closes_once_example :
  close_calls
    (trace (snd (main (Example.world Example.plain) Example.servers
                      [Fulfilled "QUIT"] new_MCPClient))) = 1
  /\ close_calls
       (trace (snd (main (Example.world Example.asks_broken) []
                         [Fulfilled "say hi"; Fulfilled "quit"]
                         new_MCPClient))) = 1
  /\ close_calls
       (trace (snd (main (Example.world Example.plain) []
                         [Rejected (Failure "closed")] new_MCPClient))) = 1.
Proof.
  refine (conj _ (conj _ _)).
  - refine (proj1 (main_closes_once (Example.world Example.plain)
                     Example.servers [Fulfilled "QUIT"] _)).
    vm_compute. discriminate.
  - refine (proj1 (main_closes_once (Example.world Example.asks_broken) []
                     [Fulfilled "say hi"; Fulfilled "quit"] _)).
    vm_compute. discriminate.
  - refine (proj1 (main_closes_once (Example.world Example.plain) []
                     [Rejected (Failure "closed")] _)).
    vm_compute. discriminate.
Defined.

(* ===================================================================== *)
(** ** Connecting to the configured servers *)

Lemma connect_calls_app t u :
  connect_calls (t ++ u) = (connect_calls t ++ connect_calls u)%list.
Proof.
  induction t as [|ev t IH]; simpl; [reflexivity|].
  destruct ev; simpl; rewrite IH; reflexivity.
Qed.

Lemma reported_app W t : forall before u,
  reported W before (t ++ u)
  = (reported W before t ++ reported W (before ++ t) u)%list.
Proof.
  induction t as [|ev t IH]; intros before u.
  - simpl. rewrite app_nil_r. reflexivity.
  - cbn [app reported]. rewrite IH, <- !app_assoc. reflexivity.
Qed.

Lemma sum_app l l' : sum (l ++ l') = sum l + sum l'.
Proof.
  induction l as [|n l IH]; simpl; [reflexivity|].
  unfold sum in *. simpl. rewrite IH. lia.
Qed.

(** One turn of the loop of [main]. *)
Lemma connect_all_step W serverName serverConfig rest s :
  connect_all W ((serverName, serverConfig) :: rest) s
  = match connectToServer W serverConfig
            (record (EvLog [LStr "Server config: "; LConfig serverConfig])
               (record (EvLog [LStr "Server name: "; LStr serverName]) s)) with
    | (Ok _, s') => connect_all W rest s'
    | (Throw e, s') => (Throw e, s')
    | (Hang, s') => (Hang, s')
    | (Exit code, s') => (Exit code, s')
    end.
Proof. reflexivity. Qed.

(** When every connection succeeds, the loop of [main] adds to the trace one
    connection per entry, in order, and to the catalog what each server
    reported. *)
Lemma connect_all_succeeds W entries : forall s,
  fst (connect_all W entries s) = Ok tt ->
  exists added,
    trace (snd (connect_all W entries s)) = (trace s ++ added)%list
    /\ connect_calls added = map (fun entry => transport_of (snd entry)) entries
    /\ length (reported W (trace s) added) = length entries
    /\ length (this_tools (snd (connect_all W entries s)))
       = length (this_tools s) + sum (reported W (trace s) added).
Proof.
  induction entries as [|[serverName serverConfig] rest IH]; intros s Hok.
  - exists []. cbn. rewrite app_nil_r. repeat split. unfold sum. simpl. lia.
  - rewrite connect_all_step in *.
    set (s2 := record (EvLog [LStr "Server config: "; LConfig serverConfig])
                 (record (EvLog [LStr "Server name: "; LStr serverName]) s)) in *.
    destruct (listTools_answer W (trace (connecting serverConfig s2)))
      as [r|e|] eqn:Hanswer.
    + rewrite (connectToServer_fulfilled W serverConfig s2 Hanswer) in *.
      cbv zeta in *.
      set (catalog := (this_tools s2 ++ map toolEntry (result_tools r))%list) in *.
      set (s3 := {| this_tools := catalog; trace := _ |}) in *.
      destruct (IH s3 Hok) as [added [Htrace [Hcalls [Hcount Hsize]]]].
      exists (connection serverName serverConfig catalog ++ added)%list.
      assert (Hs3 : trace s3
                    = (trace s ++ connection serverName serverConfig catalog)%list).
      { unfold s3, s2, listing, connecting. cbn [trace].
        repeat rewrite trace_record.
        repeat rewrite <- app_assoc. reflexivity. }
      assert (Hone : reported W (trace s)
                       (connection serverName serverConfig catalog)
                     = [length (result_tools r)]).
      { unfold connection. cbn [reported app].
        repeat rewrite <- app_assoc. cbn [app].
        unfold s2, connecting in Hanswer. repeat rewrite trace_record in Hanswer.
        repeat rewrite <- app_assoc in Hanswer. cbn [app] in Hanswer.
        rewrite Hanswer. reflexivity. }
      rewrite Hs3 in Htrace, Hcount, Hsize.
      repeat split.
      * rewrite Htrace. symmetry. apply app_assoc.
      * rewrite connect_calls_app, Hcalls. reflexivity.
      * rewrite reported_app, length_app, Hone, Hcount. reflexivity.
      * rewrite Hsize, reported_app, sum_app, Hone.
        unfold s3, catalog. cbn [this_tools]. rewrite length_app, length_map.
        unfold s2. repeat rewrite this_tools_record.
        unfold sum at 2. simpl. lia.
    + rewrite (connectToServer_rejected W serverConfig s2 Hanswer) in Hok.
      discriminate.
    + rewrite (connectToServer_unsettled W serverConfig s2 Hanswer) in Hok.
      discriminate.
Qed.

(** C7.  For a configuration of N entries whose connections all succeed,
    [connectToServer] runs once per entry, in the order of the entries: the
    transports handed to [connect] are those of the N entries in that order,
    each server is asked once for its tools, and once the loop is over the
    size of the catalog is the sum of the numbers of tools the servers
    reported. *)
Theorem connect_all_connects_each_server_in_order
    (W : World) (entries : list (string * McpServer)) :
  fst (connect_all W entries new_MCPClient) = Ok tt ->
  let s := snd (connect_all W entries new_MCPClient) in
  connect_calls (trace s) = map (fun entry => transport_of (snd entry)) entries
  /\ length (connect_calls (trace s)) = length entries
  /\ length (reported W [] (trace s)) = length entries
  /\ length (this_tools s) = sum (reported W [] (trace s)).
Proof.
  intros Hok.
  destruct (connect_all_succeeds W entries new_MCPClient Hok)
    as [added [Htrace [Hcalls [Hcount Hsize]]]].
  cbv zeta. cbn [new_MCPClient trace this_tools app length] in *.
  rewrite Htrace. repeat split; try assumption.
  rewrite Hcalls. apply length_map.
Qed.

(** The two servers of the example: two tools, then one. *)
Lemma connect_all_connects_each_server_in_order_example :
  let s := snd (connect_all (Example.world Example.plain) Example.servers
                            new_MCPClient) in
  connect_calls (trace s)
  = [transport_of Example.node_server; transport_of Example.python_server]
  /\ reported (Example.world Example.plain) [] (trace s) = [2; 1]
  /\ length (this_tools s) = 3.
Proof.
  cbv zeta.
  destruct (connect_all_connects_each_server_in_order
              (Example.world Example.plain) Example.servers eq_refl)
    as [Hcalls [_ [_ Hsize]]].
  refine (conj Hcalls (conj eq_refl _)).
  rewrite Hsize. reflexivity.
Defined.

(* ===================================================================== *)
(** ** How a query fails, and what it calls *)

Section FirstCompletion.

Variable W : World.
Variables (query : string) (s : State).

Lemma processQuery_first_rejected (e : Error) :
  create_answer W (trace s) (first_request query s) = Rejected e ->
  processQuery W query s = (Throw e, asked query s).
Proof.
  intros Hanswer. unfold processQuery, bind, get_tools, openai_create, await.
  fold (first_request query s). rewrite Hanswer. reflexivity.
Qed.

Lemma processQuery_first_unsettled :
  create_answer W (trace s) (first_request query s) = Unsettled ->
  processQuery W query s = (Hang, asked query s).
Proof.
  intros Hanswer. unfold processQuery, bind, get_tools, openai_create, await.
  fold (first_request query s). rewrite Hanswer. reflexivity.
Qed.

Lemma processQuery_no_choice (response : ChatCompletion) :
  create_answer W (trace s) (first_request query s) = Fulfilled response ->
  choices response = [] ->
  processQuery W query s = (Throw TypeError, asked query s).
Proof.
  intros Hanswer Hnone. unfold processQuery, bind, get_tools, openai_create, await.
  fold (first_request query s). rewrite Hanswer, Hnone. reflexivity.
Qed.

End FirstCompletion.


Lemma trace_asked query s :
  trace (asked query s) = (trace s ++ [EvCreate (first_request query s)])%list.
Proof. reflexivity. Qed.

Lemma trace_called query toolCall parsed s :
  trace (called query toolCall parsed s)
  = (trace s ++ [EvCreate (first_request query s);
                 EvCallTool (call_name (call_function toolCall)) parsed])%list.
Proof.
  unfold called. rewrite trace_record, trace_asked, <- app_assoc. reflexivity.
Qed.

Lemma trace_asked_again query toolCall parsed result s :
  trace (asked_again query toolCall parsed result s)
  = (trace s ++ [EvCreate (first_request query s);
                 EvCallTool (call_name (call_function toolCall)) parsed;
                 EvCreate (second_request query result toolCall)])%list.
Proof.
  unfold asked_again. rewrite trace_record, trace_called, <- app_assoc.
  reflexivity.
Qed.

Lemma processQuery_calls W query s :
  this_tools (snd (processQuery W query s)) = this_tools s
  /\ exists added,
       trace (snd (processQuery W query s)) = (trace s ++ added)%list
       /\ query_trace query s added.
Proof.
  assert (Hone : this_tools (asked query s) = this_tools s
                 /\ exists added,
                      trace (asked query s) = (trace s ++ added)%list
                      /\ query_trace query s added).
  { split; [reflexivity|]. eexists. split; [apply trace_asked|]. left. reflexivity. }
  destruct (create_answer W (trace s) (first_request query s))
    as [response|e|] eqn:Hfirst.
  2: rewrite (processQuery_first_rejected W query s Hfirst); exact Hone.
  2: rewrite (processQuery_first_unsettled W query s Hfirst); exact Hone.
  destruct (choices response) as [|choice others] eqn:Hchoice.
  1: rewrite (processQuery_no_choice W query s Hfirst Hchoice); exact Hone.
  destruct (tool_calls (message choice)) as [[|toolCall more]|] eqn:Hcalls.
  1: rewrite (processQuery_with_empty_list W query s Hfirst Hchoice Hcalls);
     exact Hone.
  2: rewrite (processQuery_without_calls W query s Hfirst Hchoice Hcalls);
     exact Hone.
  destruct (JSON_parse W (arguments (call_function toolCall)))
    as [parsed|] eqn:Hparse.
  2: rewrite (processQuery_with_bad_arguments W query s Hfirst Hchoice Hcalls
                Hparse); exact Hone.
  rewrite (processQuery_with_call W query s Hfirst Hchoice Hcalls Hparse).
  unfold after_tool_call.
  assert (Htwo : this_tools (called query toolCall parsed s) = this_tools s
                 /\ exists added,
                      trace (called query toolCall parsed s)
                      = (trace s ++ added)%list
                      /\ query_trace query s added).
  { split; [reflexivity|]. eexists. split; [apply trace_called|].
    right. left. eexists. eexists. reflexivity. }
  destruct (callTool_answer W (trace (asked query s))
                            (call_name (call_function toolCall)) parsed)
    as [result|e|]; [|exact Htwo|exact Htwo].
  assert (Hthree : this_tools (asked_again query toolCall parsed result s)
                   = this_tools s
                   /\ exists added,
                        trace (asked_again query toolCall parsed result s)
                        = (trace s ++ added)%list
                        /\ query_trace query s added).
  { split; [reflexivity|]. eexists. split; [apply trace_asked_again|].
    right. right. eexists. eexists. eexists. eexists. reflexivity. }
  destruct (create_answer W (trace (called query toolCall parsed s))
                          (second_request query result toolCall));
    exact Hthree.
Qed.

(** X1.  Whatever the model and the tool answer, a run of [processQuery]
    leaves the tool catalog as it was and makes one of three sequences of
    calls: the completion request for the query alone; this request and one
    tool call; or these two and one follow-up completion request, whose
    conversation is the user message and one tool message, without catalog.
    So a query never makes more than one tool call or more than two
    completion requests. *)
Theorem processQuery_makes_at_most_three_calls
    (W : World) (query : string) (s : State) :
  this_tools (snd (processQuery W query s)) = this_tools s
  /\ exists added,
       trace (snd (processQuery W query s)) = (trace s ++ added)%list
       /\ query_trace query s added
       /\ 1 <= length (create_calls added) <= 2
       /\ length (callTool_calls added) <= 1.
Proof.
  destruct (processQuery_calls W query s) as [Htools [added [Htrace Hshape]]].
  split; [exact Htools|]. exists added. split; [exact Htrace|].
  split; [exact Hshape|].
  destruct Hshape as [-> | [[name [parsed ->]] | [name [parsed [r [i ->]]]]]];
    simpl; lia.
Qed.

(** X2.  When the first completion request is refused, or is answered
    without any choice, [processQuery] fails (with the error of the request,
    or with a [TypeError]) after that request alone: no tool is called. *)
Theorem processQuery_first_completion_fails
    (W : World) (query : string) (s : State) :
  (forall e,
     create_answer W (trace s) (first_request query s) = Rejected e ->
     processQuery W query s = (Throw e, asked query s))
  /\ (forall response,
        create_answer W (trace s) (first_request query s) = Fulfilled response ->
        choices response = [] ->
        processQuery W query s = (Throw TypeError, asked query s))
  /\ callTool_calls (trace (asked query s)) = callTool_calls (trace s).
Proof.
  split; [|split].
  - intros e. apply processQuery_first_rejected.
  - intros response. apply processQuery_no_choice.
  - rewrite trace_asked, callTool_calls_app. simpl. apply app_nil_r.
Qed.

Lemma processQuery_first_completion_fails_example :
  processQuery Startup.silent_model "say hi" new_MCPClient
  = (Throw (Failure "401"), asked "say hi" new_MCPClient)
  /\ processQuery (Example.world {| choices := [] |}) "say hi" new_MCPClient
     = (Throw TypeError, asked "say hi" new_MCPClient).
Proof.
  refine (conj _ _).
  - exact (proj1 (processQuery_first_completion_fails
                    Startup.silent_model "say hi" new_MCPClient)
                 (Failure "401") eq_refl).
  - exact (proj1 (proj2 (processQuery_first_completion_fails
                           (Example.world {| choices := [] |}) "say hi"
                           new_MCPClient))
                 {| choices := [] |} eq_refl eq_refl).
Defined.

(** X3.  When the tool call is refused, [processQuery] fails with the error
    of the tool: the tool was called once, and no follow-up completion
    request is made. *)
Theorem processQuery_tool_call_fails
    (W : World) (query : string) (s : State)
    (response : ChatCompletion) (choice : Choice) (others : list Choice)
    (toolCall : ToolCall) (more : list ToolCall) (parsed : JSON) (e : Error) :
  create_answer W (trace s) (first_request query s) = Fulfilled response ->
  choices response = choice :: others ->
  tool_calls (message choice) = Some (toolCall :: more) ->
  JSON_parse W (arguments (call_function toolCall)) = Some parsed ->
  callTool_answer W (trace (asked query s))
                  (call_name (call_function toolCall)) parsed = Rejected e ->
  fst (processQuery W query s) = Throw e
  /\ create_calls (trace (snd (processQuery W query s)))
     = (create_calls (trace s) ++ [first_request query s])%list
  /\ callTool_calls (trace (snd (processQuery W query s)))
     = (callTool_calls (trace s)
          ++ [(call_name (call_function toolCall), parsed)])%list.
Proof.
  intros H1 H2 H3 H4 H5.
  rewrite (processQuery_with_call W query s H1 H2 H3 H4).
  unfold after_tool_call. rewrite H5. cbn [fst snd].
  rewrite trace_called, create_calls_app, callTool_calls_app.
  repeat split.
Qed.

Lemma processQuery_tool_call_fails_example :
  let run := processQuery (Startup.failing_tool Example.asks_echo) "say hi"
                          new_MCPClient in
  fst run = Throw (Failure "tool error")
  /\ create_calls (trace (snd run)) = [first_request "say hi" new_MCPClient]
  /\ callTool_calls (trace (snd run)) = [("echo", JObject [("msg", JString "hi")])].
Proof.
  exact (processQuery_tool_call_fails
           (Startup.failing_tool Example.asks_echo) "say hi" new_MCPClient
           (response := Example.asks_echo) (toolCall := Example.echo_call)
           (more := [Example.add_call])
           eq_refl eq_refl eq_refl eq_refl eq_refl).
Defined.

(** X4.  When the tool has answered and the follow-up completion request is
    refused, or is answered without any choice, [processQuery] fails (with
    the error of the request, or with a [TypeError]): the tool call has been
    made and its result is not returned. *)
Theorem processQuery_follow_up_fails
    (W : World) (query : string) (s : State)
    (response : ChatCompletion) (choice : Choice) (others : list Choice)
    (toolCall : ToolCall) (more : list ToolCall) (parsed : JSON)
    (result : CallToolResult) :
  create_answer W (trace s) (first_request query s) = Fulfilled response ->
  choices response = choice :: others ->
  tool_calls (message choice) = Some (toolCall :: more) ->
  JSON_parse W (arguments (call_function toolCall)) = Some parsed ->
  callTool_answer W (trace (asked query s))
                  (call_name (call_function toolCall)) parsed = Fulfilled result ->
  (forall e,
     create_answer W (trace (called query toolCall parsed s))
                   (second_request query result toolCall) = Rejected e ->
     fst (processQuery W query s) = Throw e)
  /\ (forall secondResponse,
        create_answer W (trace (called query toolCall parsed s))
                      (second_request query result toolCall)
        = Fulfilled secondResponse ->
        choices secondResponse = [] ->
        fst (processQuery W query s) = Throw TypeError)
  /\ callTool_calls (trace (snd (processQuery W query s)))
     = (callTool_calls (trace s)
          ++ [(call_name (call_function toolCall), parsed)])%list.
Proof.
  intros H1 H2 H3 H4 H5.
  rewrite (processQuery_with_call W query s H1 H2 H3 H4).
  unfold after_tool_call. rewrite H5. split; [|split].
  - intros e H6. rewrite H6. reflexivity.
  - intros secondResponse H6 H7. rewrite H6, H7. reflexivity.
  - destruct (create_answer W (trace (called query toolCall parsed s))
                            (second_request query result toolCall));
      cbn [snd]; rewrite trace_asked_again, callTool_calls_app;
      reflexivity.
Qed.

Lemma processQuery_follow_up_fails_example :
  fst (processQuery (Startup.no_follow_up Example.asks_echo) "say hi"
                    new_MCPClient)
  = Throw (Failure "429").
Proof.
  exact (proj1 (processQuery_follow_up_fails
                  (Startup.no_follow_up Example.asks_echo) "say hi"
                  new_MCPClient
                  (response := Example.asks_echo)
                  (toolCall := Example.echo_call) (more := [Example.add_call])
                  (result := {| result_content := JArray [JString "hi"] |})
                  eq_refl eq_refl eq_refl eq_refl eq_refl)
               (Failure "429") eq_refl).
Defined.

(** X5.  When the first completion response has no [tool_calls] field,
    [processQuery] returns the text content of the response, or the empty
    string when that content is null, after the one completion request: it
    calls no tool and makes no follow-up request. *)
Theorem processQuery_without_tool_calls_returns_text
    (W : World) (query : string) (s : State)
    (response : ChatCompletion) (choice : Choice) (others : list Choice) :
  create_answer W (trace s) (first_request query s) = Fulfilled response ->
  choices response = choice :: others ->
  tool_calls (message choice) = None ->
  fst (processQuery W query s)
  = Ok (match content (message choice) with
        | Some text => text
        | None => EmptyString
        end)
  /\ create_calls (trace (snd (processQuery W query s)))
     = (create_calls (trace s) ++ [first_request query s])%list
  /\ callTool_calls (trace (snd (processQuery W query s)))
     = callTool_calls (trace s).
Proof.
  intros H1 H2 H3.
  rewrite (processQuery_without_calls W query s H1 H2 H3). cbn [fst snd].
  rewrite trace_asked, create_calls_app, callTool_calls_app. simpl.
  rewrite app_nil_r. repeat split.
Qed.

Lemma processQuery_without_tool_calls_returns_text_example :
  let run := processQuery (Example.world Example.plain) "hello" new_MCPClient in
  fst run = Ok "Hello!"
  /\ create_calls (trace (snd run)) = [first_request "hello" new_MCPClient]
  /\ callTool_calls (trace (snd run)) = [].
Proof.
  exact (processQuery_without_tool_calls_returns_text
           (Example.world Example.plain) "hello" new_MCPClient
           (response := Example.plain) eq_refl eq_refl eq_refl).
Defined.

(** X6.  Once the tool has answered, the query makes exactly two completion
    requests, whatever the second one is answered.  The first carries the
    user message alone and the whole catalog.  The second carries no catalog,
    and its conversation is the user message followed by one tool message,
    the last of the conversation, whose content is the content of the tool
    result as it came and whose [tool_call_id] is the id of the first tool
    call. *)
Theorem processQuery_follow_up_request
    (W : World) (query : string) (s : State)
    (response : ChatCompletion) (choice : Choice) (others : list Choice)
    (toolCall : ToolCall) (more : list ToolCall) (parsed : JSON)
    (result : CallToolResult) :
  create_answer W (trace s) (first_request query s) = Fulfilled response ->
  choices response = choice :: others ->
  tool_calls (message choice) = Some (toolCall :: more) ->
  JSON_parse W (arguments (call_function toolCall)) = Some parsed ->
  callTool_answer W (trace (asked query s))
                  (call_name (call_function toolCall)) parsed = Fulfilled result ->
  create_calls (trace (snd (processQuery W query s)))
  = (create_calls (trace s)
       ++ [ {| model := "qwen2.5-vl-72b-instruct";
               messages := [UserMessage query];
               max_tokens := 500; stop := None;
               tools := Some (this_tools s) |};
            {| model := "qwen2.5-vl-72b-instruct";
               messages := [UserMessage query;
                            ToolMessage (result_content result) (id toolCall)];
               max_tokens := 500; stop := None;
               tools := None |} ])%list.
Proof.
  intros H1 H2 H3 H4 H5.
  rewrite (processQuery_with_call W query s H1 H2 H3 H4).
  unfold after_tool_call. rewrite H5.
  destruct (create_answer W (trace (called query toolCall parsed s))
                          (second_request query result toolCall));
    cbn [snd]; rewrite trace_asked_again, create_calls_app; reflexivity.
Qed.

Lemma processQuery_follow_up_request_example :
  map messages
      (create_calls
         (trace (snd (processQuery (Startup.no_follow_up Example.asks_echo)
                                   "say hi" new_MCPClient))))
  = [[UserMessage "say hi"];
     [UserMessage "say hi"; ToolMessage (JArray [JString "hi"]) "call_1"]].
Proof.
  rewrite (processQuery_follow_up_request
             (Startup.no_follow_up Example.asks_echo) "say hi" new_MCPClient
             (response := Example.asks_echo)
             (toolCall := Example.echo_call) (more := [Example.add_call])
             (result := {| result_content := JArray [JString "hi"] |})
             eq_refl eq_refl eq_refl eq_refl eq_refl).
  reflexivity.
Defined.

(* ===================================================================== *)
(** ** The session as a whole *)

Section ReadLoop.

Variable W : World.

Lemma read_loop_end s :
  read_loop W [] s = (Hang, record (EvQuestion prompt) s).
Proof. reflexivity. Qed.

Lemma read_loop_rejected e rest s :
  read_loop W (Rejected e :: rest) s = (Throw e, record (EvQuestion prompt) s).
Proof. reflexivity. Qed.

Lemma read_loop_unsettled rest s :
  read_loop W (Unsettled :: rest) s = (Hang, record (EvQuestion prompt) s).
Proof. reflexivity. Qed.

(** One turn of the loop on a line that is not [quit]. *)
Lemma read_loop_turn line rest s :
  is_quit line = false ->
  read_loop W (Fulfilled line :: rest) s
  = match processQuery W line (line_read line s) with
    | (Ok response, s') =>
        read_loop W rest (record (EvLog [LStr (nl ++ response)]) s')
    | (Throw e, s') => (Throw e, s')
    | (Hang, s') => (Hang, s')
    | (Exit code, s') => (Exit code, s')
    end.
Proof.
  intros Hother. rewrite (read_loop_query W line rest s Hother).
  unfold bind at 1.
  destruct (processQuery W line (line_read line s)) as [[response|e| |code] s'];
    reflexivity.
Qed.

End ReadLoop.

Lemma query_trace_events query s added :
  query_trace query s added -> Forall (loop_event (this_tools s)) added.
Proof.
  assert (Hfirst : loop_event (this_tools s) (EvCreate (first_request query s)))
    by (left; exists query; reflexivity).
  intros [-> | [[name [parsed ->]] | [name [parsed [r [i ->]]]]]].
  - apply Forall_cons; [exact Hfirst|apply Forall_nil].
  - apply Forall_cons; [exact Hfirst|].
    apply Forall_cons; [exact I|apply Forall_nil].
  - apply Forall_cons; [exact Hfirst|].
    apply Forall_cons; [exact I|].
    apply Forall_cons; [|apply Forall_nil].
    right. exists query, r, i. reflexivity.
Qed.


(** The loop leaves the catalog as it was and only adds calls of the loop. *)
Lemma read_loop_events W stdin : forall s,
  this_tools (snd (read_loop W stdin s)) = this_tools s
  /\ exists added,
       trace (snd (read_loop W stdin s)) = (trace s ++ added)%list
       /\ Forall (loop_event (this_tools s)) added.
Proof.
  induction stdin as [|answer rest IH]; intros s.
  - rewrite read_loop_end. split; [reflexivity|].
    exists [EvQuestion prompt]. split; [reflexivity|]. repeat constructor.
  - destruct answer as [line|e|].
    2: { rewrite read_loop_rejected. split; [reflexivity|].
         exists [EvQuestion prompt]. split; [reflexivity|]. repeat constructor. }
    2: { rewrite read_loop_unsettled. split; [reflexivity|].
         exists [EvQuestion prompt]. split; [reflexivity|]. repeat constructor. }
    assert (Hread : Forall (loop_event (this_tools s))
                      [EvQuestion prompt;
                       EvLog [LStr "Processing query..."; LStr line]])
      by (repeat constructor).
    assert (Htrace : trace (line_read line s)
                     = (trace s ++ [EvQuestion prompt;
                                    EvLog [LStr "Processing query...";
                                           LStr line]])%list).
    { unfold line_read. rewrite !trace_record, <- app_assoc. reflexivity. }
    destruct (is_quit line) eqn:Hquit.
    + rewrite (read_loop_quit W line rest s Hquit). split; [reflexivity|].
      eexists. split; [exact Htrace|exact Hread].
    + rewrite (read_loop_turn W line rest s Hquit).
      destruct (processQuery_calls W line (line_read line s))
        as [Htools [added [Hadded Hshape]]].
      apply query_trace_events in Hshape. cbn [line_read] in Hshape.
      change (this_tools (line_read line s)) with (this_tools s) in *.
      assert (Hquery : exists added',
                 trace (snd (processQuery W line (line_read line s)))
                 = (trace s ++ added')%list
                 /\ Forall (loop_event (this_tools s)) added').
      { eexists. split.
        - rewrite Hadded, Htrace, <- app_assoc. reflexivity.
        - apply Forall_app. split; [exact Hread|exact Hshape]. }
      destruct (processQuery W line (line_read line s))
        as [[response|e| |code] s']; cbn [snd] in *;
        try (split; [exact Htools|exact Hquery]).
      destruct (IH (record (EvLog [LStr (nl ++ response)]) s'))
        as [Htools' [added' [Hadded' Hshape']]].
      rewrite this_tools_record in *. rewrite Htools in *.
      split; [exact Htools'|].
      destruct Hquery as [added0 [Hadded0 Hshape0]].
      exists (added0 ++ EvLog [LStr (nl ++ response)] :: added')%list. split.
      * rewrite Hadded', trace_record, Hadded0, <- !app_assoc. reflexivity.
      * apply Forall_app. split; [exact Hshape0|].
        constructor; [exact I|exact Hshape'].
Qed.




Lemma rl_close_calls_app t u :
  rl_close_calls (t ++ u) = rl_close_calls t + rl_close_calls u.
Proof.
  induction t as [|ev t IH]; simpl; [reflexivity|].
  destruct ev; simpl; rewrite IH; reflexivity.
Qed.

Lemma loop_events_keep_interface catalog added :
  Forall (loop_event catalog) added -> rl_close_calls added = 0.
Proof.
  induction 1 as [|ev added Hev _ IH]; [reflexivity|].
  destruct ev; simpl in *; try contradiction; exact IH.
Qed.


(** [chatLoop], by how its loop ends. *)
Lemma chatLoop_run W stdin s :
  chatLoop W stdin s
  = match read_loop W stdin (started s) with
    | (Ok _, s') => (Ok tt, record EvRlClose s')
    | (Throw e, s') =>
        (Ok tt, record EvRlClose
                  (record (EvLog [LStr "Error in chat loop: "; LError e]) s'))
    | (Hang, s') => (Hang, s')
    | (Exit code, s') => (Exit code, s')
    end.
Proof.
  cbv beta iota delta [chatLoop bind emit try_finally try_catch console_log].
  fold (started s).
  destruct (read_loop W stdin (started s)) as [[[]|e| |code] s']; reflexivity.
Qed.

(** X8.  [chatLoop] never throws.  An error thrown in the loop, by the
    terminal or by a query, is printed after [Error in chat loop: ] and
    [chatLoop] returns normally; it then does not read another line.  The
    readline interface is closed exactly once when [chatLoop] returns, and
    not at all when it waits for ever. *)
Theorem chatLoop_never_throws
    (W : World) (stdin : list (Settled string)) (s : State) :
  (forall e s',
     read_loop W stdin (started s) = (Throw e, s') ->
     chatLoop W stdin s
     = (Ok tt, record EvRlClose
                 (record (EvLog [LStr "Error in chat loop: "; LError e]) s')))
  /\ (fst (chatLoop W stdin s) = Ok tt \/ fst (chatLoop W stdin s) = Hang)
  /\ rl_close_calls (trace (snd (chatLoop W stdin s)))
     = rl_close_calls (trace s)
       + match fst (chatLoop W stdin s) with
         | Ok _ => 1
         | _ => 0
         end.
Proof.
  split; [|split].
  - intros e s' Hloop. rewrite chatLoop_run, Hloop. reflexivity.
  - apply chatLoop_returns_or_hangs.
  - rewrite chatLoop_run.
    destruct (read_loop_events W stdin (started s))
      as [_ [added [Hadded Hevents]]].
    apply loop_events_keep_interface in Hevents.
    assert (Hstart : rl_close_calls (trace (started s)) = rl_close_calls (trace s)).
    { unfold started. rewrite !trace_record, !rl_close_calls_app. simpl. lia. }
    destruct (read_loop W stdin (started s)) as [[[]|e| |code] s'];
      cbn [fst snd] in *; rewrite ?trace_record, ?rl_close_calls_app, Hadded,
        rl_close_calls_app, Hevents, Hstart; simpl; lia.
Qed.

Lemma chatLoop_never_throws_example :
  chatLoop Startup.silent_model [Fulfilled "say hi"; Fulfilled "quit"]
           new_MCPClient
  = (Ok tt,
     record EvRlClose
       (record (EvLog [LStr "Error in chat loop: "; LError (Failure "401")])
          (asked "say hi" (line_read "say hi" (started new_MCPClient))))).
Proof.
  exact (proj1 (chatLoop_never_throws Startup.silent_model
                  [Fulfilled "say hi"; Fulfilled "quit"] new_MCPClient)
               (Failure "401") _ eq_refl).
Defined.


(* ===================================================================== *)
(** ** Startup and exit *)

Lemma question_calls_app t u :
  question_calls (t ++ u) = question_calls t + question_calls u.
Proof.
  induction t as [|ev t IH]; simpl; [reflexivity|].
  destruct ev; simpl; rewrite IH; reflexivity.
Qed.



Lemma startup_events_ask_nothing added :
  Forall startup_event added -> question_calls added = 0.
Proof.
  induction 1 as [|ev added Hev _ IH]; [reflexivity|].
  destruct ev; simpl in *; try contradiction; exact IH.
Qed.

Lemma listed_app W t : forall before u,
  listed W before (t ++ u)
  = (listed W before t ++ listed W (before ++ t) u)%list.
Proof.
  induction t as [|ev t IH]; intros before u.
  - simpl. rewrite app_nil_r. reflexivity.
  - cbn [app listed]. rewrite IH, <- !app_assoc. reflexivity.
Qed.

(** The loop of [main] on a list of entries followed by another. *)
Lemma connect_all_app W first_entries later : forall s,
  connect_all W (first_entries ++ later) s
  = match connect_all W first_entries s with
    | (Ok _, s') => connect_all W later s'
    | (Throw e, s') => (Throw e, s')
    | (Hang, s') => (Hang, s')
    | (Exit code, s') => (Exit code, s')
    end.
Proof.
  induction first_entries as [|[serverName serverConfig] rest IH]; intros s.
  - reflexivity.
  - cbn [app]. rewrite !connect_all_step.
    destruct (connectToServer W serverConfig _) as [[[]|e| |code] s'];
      [apply IH|reflexivity..].
Qed.

(** The startup only prints, connects and lists. *)
Lemma connect_all_events W entries : forall s,
  exists added,
    trace (snd (connect_all W entries s)) = (trace s ++ added)%list
    /\ Forall startup_event added.
Proof.
  induction entries as [|[serverName serverConfig] rest IH]; intros s.
  - exists []. split; [symmetry; apply app_nil_r|constructor].
  - rewrite connect_all_step.
    fold (announced serverName serverConfig s).
    set (s2 := announced serverName serverConfig s).
    assert (Hs2 : trace s2
                  = (trace s ++ [EvLog [LStr "Server name: "; LStr serverName];
                                 EvLog [LStr "Server config: ";
                                        LConfig serverConfig]])%list).
    { unfold s2, announced. rewrite !trace_record, <- app_assoc. reflexivity. }
    destruct (listTools_answer W (trace (connecting serverConfig s2)))
      as [r|e|] eqn:Hanswer.
    + rewrite (connectToServer_fulfilled W serverConfig s2 Hanswer).
      cbv zeta.
      match goal with
      | |- context [connect_all W rest ?s3] =>
          destruct (IH s3) as [added [Hadded Hevents]]; rewrite Hadded
      end.
      cbn [trace]. unfold listing, connecting. rewrite !trace_record, Hs2.
      eexists. split; [rewrite <- !app_assoc; reflexivity|].
      cbn [app]. repeat (apply Forall_cons; [exact I|]). exact Hevents.
    + rewrite (connectToServer_rejected W serverConfig s2 Hanswer). cbn [snd].
      unfold listing, connecting. rewrite !trace_record, Hs2.
      eexists. split; [rewrite <- !app_assoc; reflexivity|].
      cbn [app]. repeat (apply Forall_cons; [exact I|]). constructor.
    + rewrite (connectToServer_unsettled W serverConfig s2 Hanswer). cbn [snd].
      unfold listing, connecting. rewrite !trace_record, Hs2.
      eexists. split; [rewrite <- !app_assoc; reflexivity|].
      cbn [app]. repeat (apply Forall_cons; [exact I|]). constructor.
Qed.

(** When every connection succeeds, the catalog grows by the entries of the
    tools listed, in the order of the listings. *)
Lemma connect_all_catalog W entries : forall s,
  fst (connect_all W entries s) = Ok tt ->
  exists added,
    trace (snd (connect_all W entries s)) = (trace s ++ added)%list
    /\ this_tools (snd (connect_all W entries s))
       = (this_tools s
            ++ map toolEntry (concat (listed W (trace s) added)))%list.
Proof.
  induction entries as [|[serverName serverConfig] rest IH]; intros s Hok.
  - exists []. cbn. rewrite !app_nil_r. split; reflexivity.
  - rewrite connect_all_step in *.
    set (s2 := record (EvLog [LStr "Server config: "; LConfig serverConfig])
                 (record (EvLog [LStr "Server name: "; LStr serverName]) s)) in *.
    destruct (listTools_answer W (trace (connecting serverConfig s2)))
      as [r|e|] eqn:Hanswer.
    + rewrite (connectToServer_fulfilled W serverConfig s2 Hanswer) in *.
      cbv zeta in *.
      set (catalog := (this_tools s2 ++ map toolEntry (result_tools r))%list) in *.
      set (s3 := {| this_tools := catalog; trace := _ |}) in *.
      destruct (IH s3 Hok) as [added [Htrace Hcatalog]].
      exists (connection serverName serverConfig catalog ++ added)%list.
      assert (Hs3 : trace s3
                    = (trace s ++ connection serverName serverConfig catalog)%list).
      { unfold s3, s2, listing, connecting. cbn [trace].
        repeat rewrite trace_record.
        repeat rewrite <- app_assoc. reflexivity. }
      assert (Hone : listed W (trace s)
                       (connection serverName serverConfig catalog)
                     = [result_tools r]).
      { unfold connection. cbn [listed app].
        repeat rewrite <- app_assoc. cbn [app].
        unfold s2, connecting in Hanswer. repeat rewrite trace_record in Hanswer.
        repeat rewrite <- app_assoc in Hanswer. cbn [app] in Hanswer.
        rewrite Hanswer. reflexivity. }
      rewrite Hs3 in Htrace, Hcatalog. split.
      * rewrite Htrace. symmetry. apply app_assoc.
      * rewrite Hcatalog, listed_app, Hone. cbn [app concat].
        unfold s3, catalog, s2. cbn [this_tools].
        rewrite !this_tools_record, map_app, app_assoc. reflexivity.
    + rewrite (connectToServer_rejected W serverConfig s2 Hanswer) in Hok.
      discriminate.
    + rewrite (connectToServer_unsettled W serverConfig s2 Hanswer) in Hok.
      discriminate.
Qed.

(** X10.  When the connections all succeed, the catalog is the list of the
    entries of all the tools the servers listed, server after server in the
    order of the connections and, for each server, in the order of its
    listing.  Nothing is merged: a name listed twice is twice in the
    catalog. *)
Theorem connect_all_catalog_is_concatenation
    (W : World) (entries : list (string * McpServer)) :
  fst (connect_all W entries new_MCPClient) = Ok tt ->
  let s := snd (connect_all W entries new_MCPClient) in
  this_tools s = map toolEntry (concat (listed W [] (trace s)))
  /\ tool_names (this_tools s)
     = map tool_name (concat (listed W [] (trace s))).
Proof.
  intros Hok. cbv zeta.
  destruct (connect_all_catalog W entries new_MCPClient Hok)
    as [added [Htrace Hcatalog]].
  cbn [new_MCPClient trace this_tools app] in *.
  rewrite Hcatalog, Htrace. split; [reflexivity|].
  unfold tool_names. rewrite map_map. reflexivity.
Qed.

Lemma connect_all_catalog_is_concatenation_example :
  tool_names
    (this_tools (snd (connect_all (Example.world Example.plain)
                                  Startup.twin_servers new_MCPClient)))
  = ["pair"; "echo"; "pair"; "echo"].
Proof.
  rewrite (proj2 (connect_all_catalog_is_concatenation
                    (Example.world Example.plain) Startup.twin_servers
                    eq_refl)).
  reflexivity.
Defined.

Lemma startup_events_close_nothing added :
  Forall startup_event added -> close_calls added = 0.
Proof.
  induction 1 as [|ev added Hev _ IH]; [reflexivity|].
  destruct ev; simpl in *; try contradiction; exact IH.
Qed.

(** [main], by how its [try] block ends. *)
Lemma main_run W entries stdin s0 :
  main W entries stdin s0
  = match main_body W entries stdin s0 with
    | (Ok _, s) => closing W s
    | (Throw _, s) => closing W s
    | (Hang, s) => (Hang, s)
    | (Exit code, s) => (Exit code, s)
    end.
Proof.
  unfold main, try_finally, closing, cleanup, mcp_close, bind, await, process_exit.
  destruct (main_body W entries stdin s0) as [[[]|e| |code] s]; try reflexivity;
    destruct (close_answer W (trace s)) as [[]|e'|]; reflexivity.
Qed.

(** The [try] block of [main] when a connection is refused. *)
Lemma main_body_refused W before serverName serverConfig after stdin e :
  fst (connect_all W before new_MCPClient) = Ok tt ->
  listTools_answer W
    (trace (connecting serverConfig
              (announced serverName serverConfig
                 (snd (connect_all W before new_MCPClient)))))
  = Rejected e ->
  main_body W (before ++ (serverName, serverConfig) :: after) stdin
            new_MCPClient
  = (Throw e,
     refused serverName serverConfig e (snd (connect_all W before new_MCPClient))).
Proof.
  intros Hok Hanswer. unfold main_body, bind.
  rewrite connect_all_app.
  destruct (connect_all W before new_MCPClient) as [[[]|e'| |code] s];
    try discriminate.
  cbn [snd] in Hanswer. rewrite connect_all_step.
  fold (announced serverName serverConfig s).
  rewrite (connectToServer_rejected W serverConfig
             (announced serverName serverConfig s) Hanswer).
  reflexivity.
Qed.

(** X11.  When the listing of a server's tools fails, the startup stops
    there.  The servers after it in the configuration are never connected,
    the catalog holds what the servers before it listed, and the loop does
    not start: no line is read.  The connection is still closed, once, and
    when the closing succeeds the process exits with code 0. *)
Theorem main_stops_at_refused_connection
    (W : World) (before : list (string * McpServer))
    (serverName : string) (serverConfig : McpServer)
    (after : list (string * McpServer)) (stdin : list (Settled string))
    (e : Error) :
  fst (connect_all W before new_MCPClient) = Ok tt ->
  listTools_answer W
    (trace (connecting serverConfig
              (announced serverName serverConfig
                 (snd (connect_all W before new_MCPClient)))))
  = Rejected e ->
  let s := snd (connect_all W before new_MCPClient) in
  let run := main W (before ++ (serverName, serverConfig) :: after) stdin
                  new_MCPClient in
  connect_calls (trace (snd run))
  = map (fun entry => transport_of (snd entry))
        (before ++ [(serverName, serverConfig)])
  /\ this_tools (snd run) = this_tools s
  /\ question_calls (trace (snd run)) = 0
  /\ close_calls (trace (snd run)) = 1
  /\ (forall u,
        close_answer W (trace (refused serverName serverConfig e s))
        = Fulfilled u ->
        fst run = Exit 0%Z).
Proof.
  intros Hok Hanswer. cbv zeta.
  rewrite main_run,
    (main_body_refused W before serverName serverConfig after stdin Hok Hanswer).
  destruct (connect_all_succeeds W before new_MCPClient Hok)
    as [added [Htrace [Hcalls _]]].
  destruct (connect_all_events W before new_MCPClient)
    as [added' [Htrace' Hevents]].
  cbn [new_MCPClient trace app] in Htrace, Htrace'.
  set (s := snd (connect_all W before new_MCPClient)) in *.
  assert (Hrefused : trace (refused serverName serverConfig e s)
                     = (trace s
                          ++ [EvLog [LStr "Server name: "; LStr serverName];
                              EvLog [LStr "Server config: "; LConfig serverConfig];
                              EvConnect (transport_of serverConfig);
                              EvListTools;
                              EvLog [LStr "Failed to connect to MCP server: ";
                                     LError e]])%list).
  { unfold refused, listing, connecting, announced.
    rewrite !trace_record, <- !app_assoc. reflexivity. }
  assert (Hconnects : connect_calls (trace (refused serverName serverConfig e s))
                      = map (fun entry => transport_of (snd entry))
                            (before ++ [(serverName, serverConfig)])).
  { rewrite Hrefused, connect_calls_app, Htrace, Hcalls, map_app. reflexivity. }
  assert (Hquestions : question_calls (trace (refused serverName serverConfig e s))
                       = 0).
  { rewrite Hrefused, question_calls_app, Htrace'.
    rewrite (startup_events_ask_nothing Hevents). reflexivity. }
  assert (Hcloses : close_calls (trace (refused serverName serverConfig e s)) = 0).
  { rewrite Hrefused, close_calls_app, Htrace'.
    rewrite (startup_events_close_nothing Hevents). reflexivity. }
  unfold closing.
  destruct (close_answer W (trace (refused serverName serverConfig e s)))
    as [[]|e'|]; cbn [fst snd];
    rewrite ?trace_record, ?connect_calls_app, ?question_calls_app,
      ?close_calls_app, Hconnects, Hquestions, Hcloses, ?this_tools_record;
    simpl; rewrite ?app_nil_r;
    (split; [reflexivity|]); (split; [reflexivity|]);
    (split; [reflexivity|]); (split; [reflexivity|]);
    intros u Hu; first [reflexivity|discriminate].
Qed.

Lemma main_stops_at_refused_connection_example :
  let run := main (Example.world Example.plain) Startup.servers
                  [Fulfilled "hello"; Fulfilled "quit"] new_MCPClient in
  connect_calls (trace (snd run))
  = [transport_of Example.node_server; transport_of Startup.missing_server]
  /\ tool_names (this_tools (snd run)) = ["pair"; "echo"]
  /\ question_calls (trace (snd run)) = 0
  /\ close_calls (trace (snd run)) = 1
  /\ fst run = Exit 0%Z.
Proof.
  destruct (main_stops_at_refused_connection
              (Example.world Example.plain)
              [("texts", Example.node_server)] "lost" Startup.missing_server
              [("adder", Example.python_server)]
              [Fulfilled "hello"; Fulfilled "quit"]
              (e := Failure "spawn ENOENT") eq_refl eq_refl)
    as [Hconnects [Htools [Hquestions [Hcloses Hexit]]]].
  cbv zeta. refine (conj Hconnects (conj _ (conj Hquestions (conj Hcloses _)))).
  - change (Startup.servers)
      with ([("texts", Example.node_server)]
              ++ ("lost", Startup.missing_server)
                   :: [("adder", Example.python_server)])%list.
    rewrite Htools. reflexivity.
  - exact (Hexit tt eq_refl).
Defined.



(* ===================================================================== *)
(** ** The lines that end the loop *)

Ltac letter_cases c :=
  destruct c as [[] [] [] [] [] [] [] []];
  (split;
   [ intros H; vm_compute in H;
     first [ discriminate H | left; reflexivity | right; left; reflexivity ]
   | intros [H|[H|[]]]; first [ discriminate H | reflexivity ] ]).

Lemma lower_ascii_q c : lower_ascii c = "q"%char <-> In c ["q"; "Q"]%char.
Proof. letter_cases c. Qed.

Lemma lower_ascii_u c : lower_ascii c = "u"%char <-> In c ["u"; "U"]%char.
Proof. letter_cases c. Qed.

Lemma lower_ascii_i c : lower_ascii c = "i"%char <-> In c ["i"; "I"]%char.
Proof. letter_cases c. Qed.

Lemma lower_ascii_t c : lower_ascii c = "t"%char <-> In c ["t"; "T"]%char.
Proof. letter_cases c. Qed.

Lemma toLowerCase_empty line : toLowerCase line = EmptyString -> line = EmptyString.
Proof. destruct line; [reflexivity|discriminate]. Qed.

(** X13.  The lines that end the loop are the sixteen spellings of [quit] in
    upper and lower case, and no other: a line is one of them exactly when it
    has four characters, a [q] or [Q], a [u] or [U], an [i] or [I] and a [t]
    or [T].  The line is compared as it was typed, so a space before or after
    the word makes it a query. *)
Theorem is_quit_spellings (line : string) :
  is_quit line = true
  <-> exists a b c d,
        line = String a (String b (String c (String d EmptyString)))
        /\ In a ["q"; "Q"]%char /\ In b ["u"; "U"]%char
        /\ In c ["i"; "I"]%char /\ In d ["t"; "T"]%char.
Proof.
  unfold is_quit. rewrite String.eqb_eq. split.
  - intros Hlower.
    destruct line as [|a [|b [|c [|d rest]]]]; try discriminate.
    cbn [toLowerCase] in Hlower.
    injection Hlower as Ha Hb Hc Hd Hrest.
    apply toLowerCase_empty in Hrest. subst rest.
    exists a, b, c, d. split; [reflexivity|].
    rewrite <- lower_ascii_q, <- lower_ascii_u, <- lower_ascii_i,
      <- lower_ascii_t.
    auto.
  - intros [a [b [c [d [-> [Ha [Hb [Hc Hd]]]]]]]].
    apply lower_ascii_q in Ha. apply lower_ascii_u in Hb.
    apply lower_ascii_i in Hc. apply lower_ascii_t in Hd.
    cbn [toLowerCase]. rewrite Ha, Hb, Hc, Hd. reflexivity.
Qed.

(** A space after the word, a space before it, another word. *)
Lemma is_quit_spellings_example :
  is_quit "qUiT" = true
  /\ is_quit "quit " = false /\ is_quit " quit" = false
  /\ is_quit "exit" = false.
Proof.
  refine (conj _ (conj eq_refl (conj eq_refl eq_refl))).
  apply (proj2 (is_quit_spellings "qUiT")).
  exists "q"%char, "U"%char, "i"%char, "T"%char. simpl. tauto.
Defined.

(* ===================================================================== *)
(** ** What a query offers to the model *)

Lemma query_trace_first_request query s added :
  query_trace query s added ->
  exists later, create_calls added = first_request query s :: later.
Proof.
  intros [-> | [[name [parsed ->]] | [name [parsed [r [i ->]]]]]];
    eexists; reflexivity.
Qed.

(** X14.  After a startup whose connections all succeeded, the first
    completion request of every query offers the model the tools of all the
    servers, in the order they were listed, each with the schema its server
    gave for it: the [required] list of a tool's schema, which the catalog
    entry does not repeat in its own [required], reaches the model inside
    [parameters]. *)
Theorem processQuery_offers_every_listed_tool
    (W : World) (entries : list (string * McpServer)) (query : string) :
  fst (connect_all W entries new_MCPClient) = Ok tt ->
  let s := snd (connect_all W entries new_MCPClient) in
  let listing := concat (listed W [] (trace s)) in
  exists offered later,
    create_calls (trace (snd (processQuery W query s)))
    = (create_calls (trace s)
         ++ create_params [UserMessage query] (Some offered) :: later)%list
    /\ map (fun entry => (name (function entry), parameters (function entry)))
           offered
       = map (fun tool => (tool_name tool, Some (inputSchema tool))) listing.
Proof.
  intros Hok. cbv zeta.
  destruct (connect_all_catalog W entries new_MCPClient Hok)
    as [added [Htrace Hcatalog]].
  cbn [new_MCPClient trace this_tools app] in Htrace, Hcatalog.
  set (s := snd (connect_all W entries new_MCPClient)) in *.
  destruct (processQuery_calls W query s) as [_ [calls [Hcalls Hshape]]].
  apply query_trace_first_request in Hshape. destruct Hshape as [later Hlater].
  exists (this_tools s), later. split.
  - rewrite Hcalls, create_calls_app, Hlater. reflexivity.
  - rewrite Hcatalog, Htrace, map_map. reflexivity.
Qed.

Lemma processQuery_offers_every_listed_tool_example :
  exists offered later,
    create_calls
      (trace (snd (processQuery (Example.world Example.plain) "hello"
                     (snd (connect_all (Example.world Example.plain)
                                       Example.servers new_MCPClient))))) 
    = create_params [UserMessage "hello"] (Some offered) :: later
    /\ map (fun entry => (name (function entry), parameters (function entry)))
           offered
       = [("pair", Some (inputSchema Example.pair_tool));
          ("echo", Some (inputSchema Example.echo_tool));
          ("add", Some (inputSchema Example.add_tool))].
Proof.
  destruct (processQuery_offers_every_listed_tool
              (Example.world Example.plain) Example.servers "hello" eq_refl)
    as [offered [later [Hcalls Hoffered]]].
  exists offered, later. split; [exact Hcalls|exact Hoffered].
Defined.
